(** * PyCatan: the terminal board renderer and the roll-yield bookkeeping

    A shallow embedding of [pycatan/board/_board_renderer.py],
    [pycatan/roll_yield.py] and [pycatan/building.py], followed by the
    properties of the renderer's projection, colour policy and glyph
    compositor. *)

From Stdlib Require Import ZArith List String Lia SpecFloat.
From stdpp Require Import base option list countable gmap strings.

Set Warnings "-clear-no-such-hyp".

Local Open Scope string_scope.
Local Open Scope Z_scope.

(* ===================================================================== *)
(** * Python runtime: exceptions and results                              *)
(* ===================================================================== *)

(** The built-in exceptions the modelled code can raise. *)
Inductive exn : Type :=
| IndexError
| KeyError
| OverflowError
| ValueError.

Inductive result (A : Type) : Type :=
| Ok (a : A)
| Raise (e : exn).
Arguments Ok {A} a.
Arguments Raise {A} e.

#[global] Instance result_ret : MRet result := fun _ a => Ok a.
#[global] Instance result_bind : MBind result := fun _ _ f m =>
  match m with
  | Ok a => f a
  | Raise e => Raise e
  end.

(* ===================================================================== *)
(** * Python floats: IEEE 754 binary64                                    *)
(* ===================================================================== *)

Module Float64.

Definition prec : Z := 53.
Definition emax : Z := 1024.

Definition mul : spec_float -> spec_float -> spec_float := SFmul prec emax.
Definition add : spec_float -> spec_float -> spec_float := SFadd prec emax.

(** [int -> float] as done for the int operand of a mixed [float * int]:
    correctly rounded (ties to even), [OverflowError] when the int is
    beyond the largest double. *)
Definition of_int (z : Z) : result spec_float :=
  match binary_normalize prec emax z 0 false with
  | S754_infinity _ => Raise OverflowError
  | f => Ok f
  end.

(** [int(x)] on a float: truncation toward zero; [OverflowError] on an
    infinity and [ValueError] on a NaN. *)
Definition to_int (f : spec_float) : result Z :=
  match f with
  | S754_zero _ => Ok 0
  | S754_finite s m e => Ok (cond_Zopp s (Z.shiftl (Z.pos m) e))
  | S754_infinity _ => Raise OverflowError
  | S754_nan => Raise ValueError
  end.

(** The literals [1.34] and [0.67]: the doubles 0x1.570a3d70a3d71p+0 and
    0x1.570a3d70a3d71p-1. *)
Definition lit_1_34 : spec_float := S754_finite false 6034823500676465 (-52).
Definition lit_0_67 : spec_float := S754_finite false 6034823500676465 (-53).

End Float64.

(* ===================================================================== *)
(** * Coordinates                                                         *)
(* ===================================================================== *)

(** [Coords]: a pair of integers on the axial grid, equal and hashed by
    value, added componentwise. *)
Record Coords : Type := mkCoords { q : Z; r : Z }.

Definition Coords_add (a b : Coords) : Coords :=
  {| q := q a + q b; r := r a + r b |}.

#[global] Instance Coords_eq_dec : EqDecision Coords.
Proof. solve_decision. Defined.

#[global] Instance Coords_countable : Countable Coords.
Proof.
  refine (inj_countable' (fun c => (q c, r c)) (fun p => mkCoords p.1 p.2) _).
  by intros [].
Defined.

(* ===================================================================== *)
(** * Projection                                                          *)
(* ===================================================================== *)

(** [BoardRenderer._get_hex_center_coords]:
    [((int)(3 * coords.r), -(int)(1.34 * coords.q + 0.67 * coords.r))]. *)
Definition _get_hex_center_coords (coords : Coords) : result (Z * Z) :=
  let x := 3 * r coords in
  fq ← Float64.of_int (q coords);
  fr ← Float64.of_int (r coords);
  n ← Float64.to_int (Float64.add (Float64.mul Float64.lit_1_34 fq)
                                  (Float64.mul Float64.lit_0_67 fr));
  Ok (x, - n).

(* ===================================================================== *)
(** * Styled text                                                         *)
(* ===================================================================== *)

(** The first argument of [stylize]: a string, or the token number. *)
Inductive text : Type :=
| Str (s : string)
| Int (n : Z).

(** Strings built by the renderer. [stylize], [fg] and [bg] belong to the
    third-party package [colored]; they are kept symbolic, and [Cat] is
    string concatenation, so two equal terms denote equal strings for any
    implementation of the package. *)
Inductive pystr : Type :=
| Lit (s : string)
| fg (color : string)
| bg (color : string)
| stylize (t : text) (styles : pystr)
| Cat (a b : pystr).

Definition newline : string := String (Ascii.ascii_of_nat 10) "".

(** [sep.join(l)] *)
Fixpoint join (sep : pystr) (l : list pystr) : pystr :=
  match l with
  | [] => Lit ""
  | [x] => x
  | x :: l' => Cat x (Cat sep (join sep l'))
  end.

(* ===================================================================== *)
(** * The object store                                                    *)
(* ===================================================================== *)

(** A [Player] is used as a dictionary key only: its identity. *)
Definition Player : Type := positive.

Definition loc : Type := positive.

(** The mutable objects the renderer shares by reference: lists of colour
    strings and dictionaries from players to colour strings. Every reference
    a program holds is to an allocated object, so the default of the total
    lookup [!!!] is never observed. *)
Record heap : Type := mkHeap {
  lists : gmap loc (list string);
  dicts : gmap loc (gmap Player string)
}.

Definition M (A : Type) : Type := heap -> result A * heap.

#[global] Instance M_ret : MRet M := fun _ a h => (Ok a, h).
#[global] Instance M_bind : MBind M := fun _ _ f m h =>
  match m h with
  | (Ok a, h') => f a h'
  | (Raise e, h') => (Raise e, h')
  end.

Definition lift {A} (x : result A) : M A := fun h => (x, h).

(** [l.pop(0)] *)
Definition list_pop0 (l : loc) : M string := fun h =>
  match lists h !!! l with
  | [] => (Raise IndexError, h)
  | c :: rest => (Ok c, mkHeap (<[l := rest]> (lists h)) (dicts h))
  end.

(** [k in d] *)
Definition dict_contains (d : loc) (k : Player) : M bool := fun h =>
  (Ok (bool_decide (is_Some ((dicts h !!! d) !! k))), h).

(** [d[k] = v] *)
Definition dict_setitem (d : loc) (k : Player) (v : string) : M unit := fun h =>
  (Ok tt, mkHeap (lists h) (<[d := <[k := v]> (dicts h !!! d)]> (dicts h))).

(** [d[k]] *)
Definition dict_getitem (d : loc) (k : Player) : M string := fun h =>
  (match (dicts h !!! d) !! k with
   | Some v => Ok v
   | None => Raise KeyError
   end, h).

(** [d[k]] on an immutable table. *)
Definition getitem `{Lookup K V D} (d : D) (k : K) : result V :=
  match d !! k with
  | Some v => Ok v
  | None => Raise KeyError
  end.

(** [l[i]] for a constant index [i >= 0]. *)
Definition index {A} (l : list A) (i : nat) : result A :=
  match l !! i with
  | Some a => Ok a
  | None => Raise IndexError
  end.

(* ===================================================================== *)
(** * Enumerations                                                        *)
(* ===================================================================== *)

(** [HexType], with the members that key [DEFAULT_HEX_COLORS]. *)
Inductive HexType : Type :=
| FIELDS | FOREST | PASTURE | HILLS | MOUNTAINS | DESERT.

(** [Resource], with the members that key [DEFAULT_RESOURCE_COLORS]. *)
Inductive Resource : Type :=
| GRAIN | LUMBER | WOOL | BRICK | ORE.

(** Modelled from the spec: the enumeration [BuildingType] of
    [building_type.py], which is not among the sources: ROAD, SETTLEMENT,
    CITY. *)
Inductive BuildingType : Type :=
| ROAD | SETTLEMENT | CITY.

#[global] Instance HexType_eq_dec : EqDecision HexType.
Proof. solve_decision. Defined.
#[global] Instance Resource_eq_dec : EqDecision Resource.
Proof. solve_decision. Defined.
#[global] Instance BuildingType_eq_dec : EqDecision BuildingType.
Proof. solve_decision. Defined.

#[global] Instance HexType_countable : Countable HexType.
Proof.
  refine (inj_countable'
    (fun t => match t with
              | FIELDS => 0 | FOREST => 1 | PASTURE => 2
              | HILLS => 3 | MOUNTAINS => 4 | DESERT => 5 end)%nat
    (fun n => match n with
              | 0 => FIELDS | 1 => FOREST | 2 => PASTURE
              | 3 => HILLS | 4 => MOUNTAINS | _ => DESERT end)%nat _).
  by intros [].
Defined.

#[global] Instance Resource_countable : Countable Resource.
Proof.
  refine (inj_countable'
    (fun t => match t with
              | GRAIN => 0 | LUMBER => 1 | WOOL => 2 | BRICK => 3 | ORE => 4
              end)%nat
    (fun n => match n with
              | 0 => GRAIN | 1 => LUMBER | 2 => WOOL | 3 => BRICK | _ => ORE
              end)%nat _).
  by intros [].
Defined.

(* ===================================================================== *)
(** * building.py                                                         *)
(* ===================================================================== *)

(** What a subclass of [Building] adds to the two attributes of the base
    class: [CornerBuilding.coords] or [EdgeBuilding.edge_coords]. *)
Inductive placement : Type :=
| Unplaced
| Corner (coords : Coords)
| Edge (edge_coords : gset Coords).

Record Building : Type := mkBuilding {
  owner : Player;
  building_type : BuildingType;
  placed : placement
}.

(** [Building.__init__] *)
Definition Building__init__ (owner : Player) (building_type : BuildingType)
  : Building :=
  mkBuilding owner building_type Unplaced.

(** [CornerBuilding.__init__]: [super().__init__] then [self.coords]. *)
Definition CornerBuilding__init__
  (owner : Player) (building_type : BuildingType) (coords : Coords)
  : Building :=
  let 'mkBuilding o t _ := Building__init__ owner building_type in
  mkBuilding o t (Corner coords).

(** [EdgeBuilding.__init__]: [super().__init__] then [self.edge_coords]. *)
Definition EdgeBuilding__init__
  (owner : Player) (building_type : BuildingType) (edge_coords : gset Coords)
  : Building :=
  let 'mkBuilding o t _ := Building__init__ owner building_type in
  mkBuilding o t (Edge edge_coords).

(* ===================================================================== *)
(** * The board, as the renderer reads it                                 *)
(* ===================================================================== *)

(** The classes [Hex], [Intersection], [Path], [Harbor] and [Board] of the
    board package are not among the sources; each is given the attributes
    that the renderer reads. *)

Module Hex.
(** Modelled from the spec: [Hex], which is not among the sources: a
    terrain type and an optional production token. *)
Record t : Type := mk { hex_type : HexType; token_number : option Z }.
End Hex.

Module Intersection.
(** Modelled from the spec: [Intersection], which is not among the sources:
    a corner that optionally holds a building. *)
Record t : Type := mk { building : option Building }.
End Intersection.

Module Path.
(** Modelled from the spec: [Path], which is not among the sources: an
    unordered pair of corners that optionally holds a building. The
    renderer reads [path_coords] only through [frozenset(...)]. *)
Record t : Type := mk {
  path_coords : gset Coords;
  building : option Building
}.
End Path.

Module Harbor.
(** Modelled from the spec: [Harbor], which is not among the sources: the
    pair of corners of its edge and an optional resource. The renderer
    iterates [path_coords]: the set in its iteration order. *)
Record t : Type := mk {
  path_coords : list Coords;
  resource : option Resource
}.
End Harbor.

Module Board.
(** Modelled from the spec: [Board], which is not among the sources: the
    mappings of hexes, corners, edges and harbors, and the robber's hex.
    [hexes] and [harbors] are dictionaries that the renderer iterates:
    their items in insertion order. *)
Record t : Type := mk {
  hexes : list (Coords * Hex.t);
  intersections : gmap Coords Intersection.t;
  paths : gmap (gset Coords) Path.t;
  harbors : list (gset Coords * Harbor.t);
  robber : Coords
}.
End Board.

(** Dictionaries with an iteration order: key lookup, membership, keys and
    values. *)
Fixpoint assoc `{EqDecision K} {V} (k : K) (d : list (K * V)) : option V :=
  match d with
  | [] => None
  | (k', v) :: d' => if decide (k' = k) then Some v else assoc k d'
  end.

(** [d[k]] on such a dictionary. *)
Definition getitem_assoc `{EqDecision K} {V} (d : list (K * V)) (k : K)
  : result V :=
  match assoc k d with
  | Some v => Ok v
  | None => Raise KeyError
  end.

Definition contains `{EqDecision K} {V} (d : list (K * V)) (k : K) : bool :=
  bool_decide (is_Some (assoc k d)).

Definition keys {K V} (d : list (K * V)) : list K := map fst d.
Definition values {K V} (d : list (K * V)) : list V := map snd d.

(* ===================================================================== *)
(** * _board_renderer.py: class BoardRenderer                             *)
(* ===================================================================== *)

(** The contents of the list [DEFAULT_PLAYER_COLORS] when the class body
    has run. *)
Definition palette : list string :=
  ["#00c40d"; "#ff00d9"; "#0000FF"; "#00FFFF"].

Definition DEFAULT_HEX_COLORS : gmap HexType string :=
  list_to_map
    [(FIELDS, "#ffea29"); (FOREST, "#005e09"); (PASTURE, "#52ff62");
     (HILLS, "#cc1f0c"); (MOUNTAINS, "#7a7a7a"); (DESERT, "#ffe5a3")].

Definition DEFAULT_RESOURCE_COLORS : gmap Resource string :=
  list_to_map
    [(GRAIN, "#ffea29"); (LUMBER, "#005e09"); (WOOL, "#52ff62");
     (BRICK, "#cc1f0c"); (ORE, "#7a7a7a")].

Definition WATER_COLOR : string := "#2387de".

(** The two mutable objects that exist once the class body has run: the
    list bound to the class attribute [DEFAULT_PLAYER_COLORS], and the
    dictionary [{}] that is the default value of the parameter
    [player_color_map] of [__init__] (a default value is evaluated once,
    when the [def] is executed). *)
Definition DEFAULT_PLAYER_COLORS : loc := 1%positive.
Definition __init__default_player_color_map : loc := 1%positive.

Definition heap_after_import : heap :=
  mkHeap {[ DEFAULT_PLAYER_COLORS := palette ]}
         {[ __init__default_player_color_map := ∅ ]}.

(** An instance: the first two attributes are references into the store,
    the colour tables are never written by the class. *)
Record BoardRenderer : Type := mkBoardRenderer {
  _unused_player_colors : loc;
  player_color_map : loc;
  hex_color_map : gmap HexType string;
  resource_color_map : gmap Resource string
}.

(** [BoardRenderer.__init__]; [None] is an omitted argument. *)
Definition BoardRenderer__init__
  (player_color_map : option loc)
  (hex_color_map : option (gmap HexType string))
  (resource_color_map : option (gmap Resource string)) : BoardRenderer :=
  mkBoardRenderer
    DEFAULT_PLAYER_COLORS
    (default __init__default_player_color_map player_color_map)
    (default DEFAULT_HEX_COLORS hex_color_map)
    (default DEFAULT_RESOURCE_COLORS resource_color_map).

Section methods.
Variable self : BoardRenderer.

Definition _get_player_color (player : Player) : M string :=
  known ← dict_contains (player_color_map self) player;
  (if negb known
   then c ← list_pop0 (_unused_player_colors self);
        dict_setitem (player_color_map self) player c
   else mret tt);;
  dict_getitem (player_color_map self) player.

Definition _get_path (chars : list string) (path : Path.t) (board : Board.t)
  : M (list pystr) :=
  let fore := "#9c7500" in
  back ← lift (getitem (hex_color_map self) DESERT);
  fore ← match Path.building path with
         | Some b => _get_player_color (owner b)
         | None =>
           if contains (Board.harbors board) (Path.path_coords path)
           then mret "#000000"
           else mret fore
         end;
  mret (map (fun x => stylize (Str x) (Cat (fg fore) (bg back))) chars).

Definition _get_intersection (char : string) (intersection : Intersection.t)
  : M (list pystr) :=
  let fore := "#9c7500" in
  back ← lift (getitem (hex_color_map self) DESERT);
  '(fore, char) ← match Intersection.building intersection with
                  | Some b =>
                    fore ← _get_player_color (owner b);
                    mret (fore,
                          if decide (building_type b = SETTLEMENT)
                          then "s" else "c")
                  | None => mret (fore, char)
                  end;
  mret [stylize (Str char) (Cat (fg fore) (bg back))].

Definition _get_hex_center (h : Hex.t) : result (list pystr) :=
  c ← getitem (hex_color_map self) (Hex.hex_type h);
  let space := stylize (Str " ") (bg c) in
  match Hex.token_number h with
  | None => Ok (replicate 5 space)
  | Some n =>
    let token_color :=
      if (n =? 6) || (n =? 8) then "#FF0000" else "#000000" in
    let token_chars :=
      ([if n <? 10 then space else Lit ""]
       ++ [stylize (Int n) (Cat (fg token_color) (bg "#FFFFFF"))])%list in
    Ok ([space] ++ token_chars ++ [space; space])%list
  end.

Definition _get_hex (board : Board.t) (coords : Coords)
  : M (list (list pystr)) :=
  let intersection_coords :=
    map (fun c => Coords_add c coords)
        [mkCoords 1 (-1); mkCoords 1 0; mkCoords 0 1;
         mkCoords (-1) 1; mkCoords (-1) 0; mkCoords 0 (-1)] in
  intersections ←
    lift (mapM (fun c => getitem (Board.intersections board) c)
               intersection_coords);
  paths ←
    lift (mapM (fun i =>
                  a ← index intersection_coords i;
                  b ← index intersection_coords
                        ((i + 1) `mod` length intersection_coords)%nat;
                  getitem (Board.paths board) ({[a; b]} : gset Coords))
               (seq 0 (length intersection_coords)));
  let corner char i :=
    x ← lift (index intersections i); _get_intersection char x in
  let edge chars i :=
    x ← lift (index paths i); _get_path chars x board in
  c0 ← corner "." 0%nat; e0 ← edge ["-"; "-"] 0%nat;
  c1 ← corner "'" 1%nat; e1 ← edge ["-"; "-"] 1%nat;
  c2 ← corner "." 2%nat;
  e5 ← edge ["|"] 5%nat;
  mid ← lift (h ← getitem_assoc (Board.hexes board) coords;
              _get_hex_center h);
  e2 ← edge ["|"] 2%nat;
  c5 ← corner "'" 5%nat; e4 ← edge ["-"; "-"] 4%nat;
  c4 ← corner "." 4%nat; e3 ← edge ["-"; "-"] 3%nat;
  c3 ← corner "'" 3%nat;
  mret [c0 ++ e0 ++ c1 ++ e1 ++ c2;
        e5 ++ mid ++ e2;
        c5 ++ e4 ++ c4 ++ e3 ++ c3]%list.

Definition _stylize_arr (arr : list string) (styles : pystr) : list pystr :=
  map (fun s => stylize (Str s) styles) arr.

Definition _get_harbor (harbor : Harbor.t) : result (list (list pystr)) :=
  fore ← match Harbor.resource harbor with
         | None => Ok "#FFFFFF"
         | Some res => getitem (resource_color_map self) res
         end;
  Ok [_stylize_arr
        [if Harbor.resource harbor is None then "3" else "2"; ":"; "1"]
        (Cat (fg fore) (bg WATER_COLOR))].

End methods.

(** A [for] loop that threads an accumulator. *)
Fixpoint foldM `{MBind F, MRet F} {A B}
  (f : B -> A -> F B) (b : B) (l : list A) : F B :=
  match l with
  | [] => mret b
  | a :: l' => b' ← f b a; foldM f b' l'
  end.

(** A list comprehension with a condition that can raise. *)
Fixpoint filterM {A} (p : A -> result bool) (l : list A) : result (list A) :=
  match l with
  | [] => Ok []
  | a :: l' =>
    b ← p a; t ← filterM p l'; Ok (if b : bool then a :: t else t)
  end.

(** The position that index [k] denotes in a list of length [n]: negative
    indices count from the end, anything outside [-n, n) raises. *)
Definition py_index (n : nat) (k : Z) : result nat :=
  if (0 <=? k) && (k <? Z.of_nat n) then Ok (Z.to_nat k)
  else if (- Z.of_nat n <=? k) && (k <? 0) then Ok (Z.to_nat (k + Z.of_nat n))
  else Raise IndexError.

(** [buf[y][x] = v] *)
Definition setitem2 (buf : list (list pystr)) (y x : Z) (v : pystr)
  : result (list (list pystr)) :=
  iy ← py_index (length buf) y;
  row ← index buf iy;
  ix ← py_index (length row) x;
  Ok (<[iy := <[ix := v]> row]> buf).

(** [BoardRenderer._copy_into_array]; the buffer is local to one call of
    [get_board_as_string] and its rows are distinct lists, so the updated
    buffer is returned. *)
Definition _copy_into_array
  (buf to_copy : list (list pystr)) (x y : Z) : result (list (list pystr)) :=
  foldM (fun buf i =>
           row ← index to_copy i;
           foldM (fun buf j =>
                    v ← index row j;
                    setitem2 buf (y + Z.of_nat i) (x + Z.of_nat j) v)
                 buf (seq 0 (length row)))
        buf (seq 0 (length to_copy)).

Section canvas.
(** [Hex.CONNECTED_CORNER_OFFSETS], a class constant of [_hex.py], which
    is not among the sources: taken as a parameter. *)
Variable CONNECTED_CORNER_OFFSETS : list Coords.
Variable self : BoardRenderer.

Definition _get_harbor_coords (harbor : Harbor.t) (board : Board.t)
  : result (Z * Z) :=
  let connected_coords :=
    map (fun coord =>
           map (fun c => Coords_add c coord) CONNECTED_CORNER_OFFSETS)
        (Harbor.path_coords harbor) in
  first ← index connected_coords 0;
  overlap ←
    filterM (fun c =>
               second ← index connected_coords 1;
               Ok (bool_decide (c ∈ second)
                   && negb (contains (Board.hexes board) c)))
            first;
  o ← index overlap 0;
  hex_coords ← _get_hex_center_coords o;
  Ok (hex_coords.1 + 2, hex_coords.2 + 1).

(** [size = 20, 55] *)
Definition canvas_size : Z * Z := (20, 55).

(** [int(size[1] / 2) - 3, int(size[0] / 2) - 1]: the quotients 27.5 and
    10.0 are exact doubles and [int] truncates them. *)
Definition center : Z * Z :=
  (Z.quot (canvas_size.2) 2 - 3, Z.quot (canvas_size.1) 2 - 1).

Definition get_board_as_string (board : Board.t) : M pystr :=
  let buf :=
    replicate (Z.to_nat (canvas_size.1))
      (replicate (Z.to_nat (canvas_size.2))
                 (stylize (Str " ") (bg WATER_COLOR))) in
  buf ← foldM (fun buf hex_coords =>
                 '(x, y) ← lift (_get_hex_center_coords hex_coords);
                 block ← _get_hex self board hex_coords;
                 lift (_copy_into_array buf block
                         (center.1 + x) (center.2 + y)))
              buf (keys (Board.hexes board));
  buf ← foldM (fun buf harbor =>
                 '(x, y) ← lift (_get_harbor_coords harbor board);
                 block ← lift (_get_harbor self harbor);
                 lift (_copy_into_array buf block
                         (center.1 + x) (center.2 + y)))
              buf (values (Board.harbors board));
  '(x, y) ← lift (_get_hex_center_coords (Board.robber board));
  buf ← lift (_copy_into_array buf
                [[stylize (Str "R") (Cat (fg "#FFFFFF") (bg "#000000"))]]
                (center.1 + x + 4) (center.2 + y + 1));
  mret (join (Lit newline) (map (join (Lit "")) buf)).

End canvas.

(* ===================================================================== *)
(** * roll_yield.py                                                       *)
(* ===================================================================== *)

(** The attributes of an instance of [RollYieldSource]. *)
Record RollYieldSource : Type := mkRollYieldSource {
  building : Building;
  hex : Hex.t
}.

(** [RollYieldSource.__init__] *)
Definition RollYieldSource__init__
  (resource : Resource) (amount : Z) (building : Building) (hex : Hex.t)
  : RollYieldSource :=
  mkRollYieldSource building hex.

(** What the set [all_yields] can hold. Neither the class nor its
    instances define [__eq__] or [__hash__]: members are compared by
    identity, the class object being one object and every instance
    another. *)
Inductive pyref : Type :=
| RollYieldSource_class
| RollYieldSource_instance (id : positive).

#[global] Instance pyref_eq_dec : EqDecision pyref.
Proof. solve_decision. Defined.

#[global] Instance pyref_countable : Countable pyref.
Proof.
  refine (inj_countable'
    (fun x => match x with
              | RollYieldSource_class => None
              | RollYieldSource_instance i => Some i
              end)
    (fun o => match o with
              | None => RollYieldSource_class
              | Some i => RollYieldSource_instance i
              end) _).
  by intros [].
Defined.

Record RollYield : Type := mkRollYield {
  total_yield : gmap Resource Z;
  all_yields : gset pyref
}.

(** [RollYield.__init__] *)
Definition RollYield__init__ : RollYield :=
  mkRollYield
    (list_to_map (map (fun r => (r, 0)) [GRAIN; LUMBER; WOOL; BRICK; ORE]))
    ∅.

(** [RollYield.add_yield]; [source] is the reference to the instance that
    the caller passes. *)
Definition add_yield
  (self : RollYield) (resource : Resource) (amount : Z) (source : pyref)
  : result RollYield :=
  n ← getitem (total_yield self) resource;
  let self := mkRollYield (<[resource := n + amount]> (total_yield self))
                          (all_yields self) in
  Ok (mkRollYield (total_yield self)
                  ({[ RollYieldSource_class ]} ∪ all_yields self)).

(* ===================================================================== *)
(** * Specification-side definitions                                      *)
(* ===================================================================== *)

(** [n] is an integer nearest to the rational [num / den], [den > 0]. *)
Definition nearest_int (n num den : Z) : Prop :=
  2 * Z.abs (den * n - num) <= den.

(** The projection as the specification words it:
    [x = 3 * r] and [y = -round(1.34*q + 0.67*r)]. *)
Definition spec_hexCenterOffset (c : Coords) (xy : Z * Z) : Prop :=
  xy.1 = 3 * r c /\ nearest_int (- xy.2) (134 * q c + 67 * r c) 100.

(** A sequence of colour requests on one renderer; a caller that catches
    an exception goes on with the store as the failed call left it. *)
Fixpoint requests (self : BoardRenderer) (ps : list Player) (h : heap)
  : list (result string) * heap :=
  match ps with
  | [] => ([], h)
  | p :: ps' =>
    let '(x, h') := _get_player_color self p h in
    let '(xs, h'') := requests self ps' h' in
    (x :: xs, h'')
  end.


(** The part of the store that is the colour state of [self]. *)
Definition colormap (self : BoardRenderer) (h : heap) : gmap Player string :=
  dicts h !!! player_color_map self.
Definition unused (self : BoardRenderer) (h : heap) : list string :=
  lists h !!! _unused_player_colors self.

(** Deciding the truncated projection on a square of coordinates. *)
Definition zrange (lo : Z) (n : nat) : list Z :=
  map (fun i => lo + Z.of_nat i) (seq 0 n).

Definition offset_is_trunc (c : Coords) : bool :=
  match _get_hex_center_coords c with
  | Ok (x, y) => (x =? 3 * r c) && (y =? - Z.quot (134 * q c + 67 * r c) 100)
  | Raise _ => false
  end.

Definition check_square (b : Z) : bool :=
  let rg := zrange (- b) (Z.to_nat (2 * b + 1)) in
  forallb (fun a => forallb (fun b' => offset_is_trunc (mkCoords a b')) rg) rg.

(** The palette still holds distinct colours, none of them assigned, and
    no colour is assigned to two players. *)
Definition color_inv (self : BoardRenderer) (h : heap) : Prop :=
  NoDup (unused self h) /\
  (forall p c, colormap self h !! p = Some c -> c ∉ unused self h) /\
  (forall p p' c, colormap self h !! p = Some c ->
                  colormap self h !! p' = Some c -> p = p').

(** The colour map of [self] only grows. *)
Definition grows (self : BoardRenderer) (h h' : heap) : Prop :=
  colormap self h ⊆ colormap self h'.

(** A computation is stable when a run that returns only grows the
    colour map and, replayed in any store whose colour map extends the
    final one, returns the same value and leaves that store as it is. *)
Definition stable {A} (self : BoardRenderer) (m : M A) : Prop :=
  forall h a h',
    m h = (Ok a, h') ->
    grows self h h' /\
    (forall h'', grows self h' h'' -> m h'' = (Ok a, h'')).

(* ===================================================================== *)
(** * A board to run the renderer on                                      *)
(* ===================================================================== *)

(** Modelled from the spec: the six directions of
    [Hex.CONNECTED_CORNER_OFFSETS], the same as those of a hex's
    corners. *)
Definition spec_CONNECTED_CORNER_OFFSETS : list Coords :=
  [mkCoords 1 (-1); mkCoords 1 0; mkCoords 0 1;
   mkCoords (-1) 1; mkCoords (-1) 0; mkCoords 0 (-1)].

Definition sample_settlement : Building :=
  CornerBuilding__init__ 1%positive SETTLEMENT (mkCoords 1 (-1)).

Definition sample_road : Building :=
  EdgeBuilding__init__ 2%positive ROAD {[mkCoords 1 0; mkCoords 0 1]}.

Definition sample_edge (a b : Coords) (bld : option Building)
  : gset Coords * Path.t :=
  ({[a; b]}, Path.mk {[a; b]} bld).

(** One FIELDS hex with token 8 at the origin, a settlement of player 1
    on its first corner, a road of player 2 on its second edge, an ore
    harbor on its first edge, and the robber on the hex. *)
Definition sample_board : Board.t :=
  Board.mk
    [(mkCoords 0 0, Hex.mk FIELDS (Some 8))]
    (list_to_map
       [(mkCoords 1 (-1), Intersection.mk (Some sample_settlement));
        (mkCoords 1 0, Intersection.mk None);
        (mkCoords 0 1, Intersection.mk None);
        (mkCoords (-1) 1, Intersection.mk None);
        (mkCoords (-1) 0, Intersection.mk None);
        (mkCoords 0 (-1), Intersection.mk None)])
    (list_to_map
       [sample_edge (mkCoords 1 (-1)) (mkCoords 1 0) None;
        sample_edge (mkCoords 1 0) (mkCoords 0 1) (Some sample_road);
        sample_edge (mkCoords 0 1) (mkCoords (-1) 1) None;
        sample_edge (mkCoords (-1) 1) (mkCoords (-1) 0) None;
        sample_edge (mkCoords (-1) 0) (mkCoords 0 (-1)) None;
        sample_edge (mkCoords 0 (-1)) (mkCoords 1 (-1)) None])
    [({[mkCoords 1 (-1); mkCoords 1 0]},
      Harbor.mk [mkCoords 1 (-1); mkCoords 1 0] (Some ORE))]
    (mkCoords 0 0).

(** A renderer built with default arguments. *)
Definition sample_renderer : BoardRenderer :=
  BoardRenderer__init__ None None None.

(* ===================================================================== *)
(** * Definitions for the further properties                              *)
(* ===================================================================== *)

(** Every run of [m], whether it returns or raises, relates the store
    before to the store after by [R]. *)
Definition respects {A} (R : heap -> heap -> Prop) (m : M A) : Prop :=
  forall h x h', m h = (x, h') -> R h h'.

(** No list but the palette of [self] and no dictionary but the colour
    map of [self] differs between [h] and [h']. *)
Definition frame (self : BoardRenderer) (h h' : heap) : Prop :=
  (forall l, l <> _unused_player_colors self -> lists h' !! l = lists h !! l) /\
  (forall d, d <> player_color_map self -> dicts h' !! d = dicts h !! d).

(** [src] written over [dst] from position [x] on. *)
Definition paste {A} (x : nat) (src dst : list A) : list A :=
  (take x dst ++ src ++ drop (x + length src) dst)%list.

(** The rows of [block] written over the rows of [buf] from row [y] on,
    each from column [x] on. *)
Definition stamp {A} (x y : nat) (block buf : list (list A)) : list (list A) :=
  (take y buf ++ zip_with (paste x) block (drop y buf)
   ++ drop (y + length block) buf)%list.

(** A buffer as tall as [buf] whose rows are as long as those of [buf]. *)
Definition same_shape {A} (buf buf' : list (list A)) : Prop :=
  length <$> buf' = length <$> buf.

(** The six corners of the hex at [coords], in the order in which
    [_get_hex] reads them, and its six edges, each between one corner and
    the next. *)
Definition hex_corners (coords : Coords) : list Coords :=
  (fun c => Coords_add c coords) <$>
  [mkCoords 1 (-1); mkCoords 1 0; mkCoords 0 1;
   mkCoords (-1) 1; mkCoords (-1) 0; mkCoords 0 (-1)].

Definition hex_edges (coords : Coords) : list (gset Coords) :=
  let cs := hex_corners coords in
  zip_with (fun a b => {[a; b]}) cs (drop 1 cs ++ take 1 cs)%list.

(** Yields added one after the other, and the sum of the amounts added
    for one resource. *)
Definition add_yields
  (self : RollYield) (l : list (Resource * Z * pyref)) : result RollYield :=
  foldM (fun s '(res, amount, source) => add_yield s res amount source) self l.

Definition amount_for (res : Resource) (l : list (Resource * Z * pyref)) : Z :=
  foldr (fun '(res', amount, _) acc =>
           if decide (res' = res) then amount + acc else acc) 0 l.

(** Small inputs to run the further properties on. *)
Definition sample_canvas : list (list pystr) :=
  replicate 3 (replicate 4 (Lit ".")).

Definition sample_block : list (list pystr) := [[Lit "a"; Lit "b"]].

(** A store in which player 1 already has a colour. *)
Definition sample_heap_colored : heap :=
  mkHeap {[ DEFAULT_PLAYER_COLORS := palette ]}
         {[ __init__default_player_color_map := {[ 1%positive := "#abcdef" ]} ]}.

(** A store with two empty colour maps besides the palette. *)
Definition sample_heap_two_maps : heap :=
  mkHeap {[ DEFAULT_PLAYER_COLORS := palette ]}
         (<[ 2%positive := ∅ ]> {[ 3%positive := ∅ ]}).

(** The sample board without its harbor. *)
Definition sample_board_no_harbor : Board.t :=
  Board.mk (Board.hexes sample_board) (Board.intersections sample_board)
           (Board.paths sample_board) [] (Board.robber sample_board).

(** A board without corners and edges. *)
Definition sample_board_empty : Board.t :=
  Board.mk [(mkCoords 0 0, Hex.mk FIELDS (Some 8))] ∅ ∅ [] (mkCoords 0 0).

(** Every exception that [m] raises satisfies [E]. *)
Definition raises_only {A} (E : exn -> Prop) (m : M A) : Prop :=
  forall h e h', m h = (Raise e, h') -> E e.

(** The robber marker. *)
Definition robber_marker : pystr :=
  stylize (Str "R") (Cat (fg "#FFFFFF") (bg "#000000")).

(* ===================================================================== *)
(** * Properties of the projection                                        *)
(* ===================================================================== *)

Lemma in_zrange lo n z :
  lo <= z < lo + Z.of_nat n -> In z (zrange lo n).
Proof.
  intros Hz. unfold zrange. apply in_map_iff.
  exists (Z.to_nat (z - lo)). split; [lia|].
  apply in_seq. lia.
Qed.

Lemma check_square_sound b c :
  check_square b = true ->
  - b <= q c <= b -> - b <= r c <= b ->
  offset_is_trunc c = true.
Proof.
  unfold check_square. intros Hchk Hq Hr.
  rewrite forallb_forall in Hchk.
  assert (Hin : forall z, - b <= z <= b ->
                          In z (zrange (- b) (Z.to_nat (2 * b + 1)))).
  { intros z Hz. apply in_zrange. lia. }
  specialize (Hchk (q c) (Hin _ Hq)).
  rewrite forallb_forall in Hchk.
  specialize (Hchk (r c) (Hin _ Hr)).
  by destruct c.
Qed.

(** The two literals are the doubles nearest to 1.34 and 0.67: each is
    within half a unit in the last place of the decimal it stands for, and
    is a normal binary64 number. *)
Lemma literals_correctly_rounded :
  valid_binary Float64.prec Float64.emax Float64.lit_1_34 = true /\
  valid_binary Float64.prec Float64.emax Float64.lit_0_67 = true /\
  2 * Z.abs (100 * 6034823500676465 - 134 * 2 ^ 52) <= 100 /\
  2 * Z.abs (100 * 6034823500676465 - 67 * 2 ^ 53) <= 100.
Proof. repeat split; vm_compute; congruence. Qed.

(** [int(x)] truncates toward zero: on a finite double of mantissa [m],
    exponent [e] and sign [s] it is the quotient, rounded toward zero, of
    the signed mantissa scaled by [2^e]. *)
Lemma to_int_truncates s m e :
  Float64.to_int (S754_finite s m e) =
  Ok (Z.quot (cond_Zopp s (Z.pos m) * 2 ^ Z.max e 0) (2 ^ Z.max (- e) 0)).
Proof.
  unfold Float64.to_int. f_equal.
  destruct (Z.le_gt_cases 0 e) as [He|He].
  - rewrite Z.max_l, Z.max_r by lia. rewrite Z.quot_1_r.
    rewrite Z.shiftl_mul_pow2 by done. by destruct s; simpl; lia.
  - rewrite Z.max_r, Z.max_l by lia. rewrite Z.mul_1_r.
    replace e with (- - e) at 1 by lia.
    rewrite Z.shiftl_opp_r, Z.shiftr_div_pow2 by lia.
    assert (0 < 2 ^ (- e)) by (apply Z.pow_pos_nonneg; lia).
    destruct s; simpl.
    + change (Z.neg m) with (- Z.pos m).
      rewrite Z.quot_opp_l by lia. f_equal.
      rewrite Z.quot_div_nonneg; lia.
    + rewrite Z.quot_div_nonneg; lia.
Qed.

(** The projection at (0, 1): the sum is the double 0.67 and [int] cuts
    it to 0. *)
Example hex_center_0_1 :
  _get_hex_center_coords (mkCoords 0 1) = Ok (3, 0).
Proof. reflexivity. Qed.

(** Outside the square of side 98 the binary64 sum can fall just below
    the exact one: at (99, -98) the exact value is 67 and the code's
    is 66. *)
Example hex_center_99_m98 :
  _get_hex_center_coords (mkCoords 99 (-98)) = Ok (-294, -66) /\
  Z.quot (134 * 99 + 67 * (-98)) 100 = 67.
Proof. split; reflexivity. Qed.

(** An int beyond the largest double makes the projection raise. *)
Example hex_center_overflow :
  _get_hex_center_coords (mkCoords (2 ^ 1024) 0) = Raise OverflowError.
Proof. reflexivity. Qed.

(** C1, as the claim states it, fails at (0, 1): the code returns (3, 0),
    and 0 is not the integer nearest to 0.67. *)
Lemma C1_round_counterexample :
  ~ (exists xy, _get_hex_center_coords (mkCoords 0 1) = Ok xy /\
                spec_hexCenterOffset (mkCoords 0 1) xy).
Proof.
  intros [xy [Hrun [_ Hnear]]].
  rewrite hex_center_0_1 in Hrun. injection Hrun as <-.
  unfold nearest_int in Hnear. simpl in Hnear. lia.
Qed.

(** C1 (amended): for every hex coordinate (q, r) with |q| <= 98 and
    |r| <= 98 the projection returns exactly (x, y) with x = 3 * r and
    y = -trunc(1.34*q + 0.67*r), where trunc drops the fractional part
    (rounds toward zero), as [int] does. *)
Theorem C1_hex_center_truncates (c : Coords) :
  - 98 <= q c <= 98 -> - 98 <= r c <= 98 ->
  _get_hex_center_coords c =
  Ok (3 * r c, - Z.quot (134 * q c + 67 * r c) 100).
Proof.
  intros Hq Hr.
  assert (Hchk : check_square 98 = true) by (vm_compute; reflexivity).
  pose proof (check_square_sound 98 c Hchk Hq Hr) as H.
  unfold offset_is_trunc in H.
  destruct (_get_hex_center_coords c) as [[x y]|]; [|done].
  apply andb_true_iff in H as [Hx Hy].
  apply Z.eqb_eq in Hx, Hy. by subst.
Qed.

Lemma C1_hex_center_truncates_witness :
  - 98 <= q (mkCoords 4 (-2)) <= 98 /\
  - 98 <= r (mkCoords 4 (-2)) <= 98 /\
  _get_hex_center_coords (mkCoords 4 (-2)) = Ok (-6, -4).
Proof.
  assert (Hq : - 98 <= q (mkCoords 4 (-2)) <= 98) by (simpl; lia).
  assert (Hr : - 98 <= r (mkCoords 4 (-2)) <= 98) by (simpl; lia).
  split_and!; [done..|].
  exact (C1_hex_center_truncates (mkCoords 4 (-2)) Hq Hr).
Defined.

(* ===================================================================== *)
(** * Properties of the colour policy                                     *)
(* ===================================================================== *)

Section color_policy.
Variable self : BoardRenderer.

(** The three ways a colour request can go. *)
Lemma get_player_color_known p h c :
  colormap self h !! p = Some c ->
  _get_player_color self p h = (Ok c, h).
Proof.
  unfold colormap. intros Hp.
  unfold _get_player_color, mbind, M_bind, dict_contains, dict_getitem.
  rewrite Hp. rewrite bool_decide_eq_true_2 by eauto. simpl.
  unfold mret, M_ret. by rewrite Hp.
Qed.

Lemma get_player_color_exhausted p h :
  colormap self h !! p = None ->
  unused self h = [] ->
  _get_player_color self p h = (Raise IndexError, h).
Proof.
  unfold colormap, unused. intros Hp Hl.
  unfold _get_player_color, mbind, M_bind, dict_contains, list_pop0.
  rewrite Hp, bool_decide_eq_false_2 by (by intros [? ?]).
  simpl. by rewrite Hl.
Qed.

Lemma get_player_color_new p h c rest :
  colormap self h !! p = None ->
  unused self h = c :: rest ->
  exists h',
    _get_player_color self p h = (Ok c, h') /\
    colormap self h' = <[p := c]> (colormap self h) /\
    unused self h' = rest.
Proof.
  unfold colormap, unused. intros Hp Hl.
  unfold _get_player_color, mbind, M_bind, dict_contains, list_pop0,
    dict_setitem, dict_getitem.
  rewrite Hp, bool_decide_eq_false_2 by (by intros [? ?]).
  simpl. rewrite Hl. simpl.
  rewrite !lookup_total_insert_eq, lookup_insert_eq.
  eexists. split; [reflexivity|]. simpl.
  by rewrite !lookup_total_insert_eq.
Qed.

(** ** Distinct players, distinct colours *)

Lemma get_player_color_inv p h x h' :
  color_inv self h ->
  _get_player_color self p h = (x, h') ->
  color_inv self h' /\
  colormap self h ⊆ colormap self h' /\
  (forall c, x = Ok c -> colormap self h' !! p = Some c).
Proof.
  intros (Hnd & Hfresh & Hinj) Hrun.
  destruct (colormap self h !! p) as [c|] eqn:Hp.
  - rewrite (get_player_color_known _ _ _ Hp) in Hrun.
    injection Hrun as <- <-. split_and!; try done.
    by intros ? [= <-].
  - destruct (unused self h) as [|c rest] eqn:Hl.
    + rewrite (get_player_color_exhausted _ _ Hp Hl) in Hrun.
      injection Hrun as <- <-. unfold color_inv. rewrite Hl.
      repeat split; try done.
    + destruct (get_player_color_new _ _ _ _ Hp Hl) as (h1 & Hrun1 & Hm & Hu).
      rewrite Hrun1 in Hrun. injection Hrun as <- <-.
      apply NoDup_cons in Hnd as [Hc Hnd].
      unfold color_inv. rewrite Hm, Hu. repeat split.
      * done.
      * intros p0 c0. rewrite lookup_insert. case_decide.
        -- by intros [= <-].
        -- intros H0 Hin. apply (Hfresh _ _ H0). by right.
      * intros p0 p1 c0. rewrite !lookup_insert.
        repeat case_decide; subst; try done.
        -- intros [= <-] H1. destruct (Hfresh _ _ H1). by left.
        -- intros H0 [= <-]. destruct (Hfresh _ _ H0). by left.
        -- apply Hinj.
      * by apply insert_subseteq.
      * intros ? [= <-]. by rewrite lookup_insert_eq.
Qed.

Lemma requests_inv ps : forall h rs h',
  color_inv self h ->
  requests self ps h = (rs, h') ->
  color_inv self h' /\
  colormap self h ⊆ colormap self h' /\
  (forall i p c, ps !! i = Some p -> rs !! i = Some (Ok c) ->
                 colormap self h' !! p = Some c).
Proof.
  induction ps as [|p ps IH]; intros h rs h' Hinv Hrun; simpl in Hrun.
  - injection Hrun as <- <-. split_and!; done.
  - destruct (_get_player_color self p h) as [x h1] eqn:Hstep.
    destruct (requests self ps h1) as [xs h2] eqn:Hrest.
    injection Hrun as <- <-.
    destruct (get_player_color_inv _ _ _ _ Hinv Hstep) as (Hinv1 & Hsub1 & Hx).
    destruct (IH _ _ _ Hinv1 Hrest) as (Hinv2 & Hsub2 & Hxs).
    split_and!; try done.
    + by etrans.
    + intros [|i] p0 c; simpl.
      * intros [= <-] [= ->].
        eapply lookup_weaken; [|exact Hsub2]. by apply Hx.
      * apply Hxs.
Qed.

Lemma fresh_color_inv h :
  colormap self h = ∅ -> unused self h = palette -> color_inv self h.
Proof.
  intros Hm Hu. unfold color_inv. rewrite Hm, Hu. repeat split.
  - compute_done.
  - intros ? ?. by rewrite lookup_empty.
  - intros ? ? ?. by rewrite lookup_empty.
Qed.

(** ** How many players can be served *)





(** ** A served player is served again *)

Lemma get_player_color_keeps p c q h x h' :
  colormap self h !! p = Some c ->
  _get_player_color self q h = (x, h') ->
  colormap self h' !! p = Some c.
Proof.
  intros Hp Hrun.
  destruct (colormap self h !! q) as [cq|] eqn:Hq.
  - rewrite (get_player_color_known _ _ _ Hq) in Hrun. by injection Hrun as _ <-.
  - destruct (unused self h) as [|c0 rest] eqn:Hl.
    + rewrite (get_player_color_exhausted _ _ Hq Hl) in Hrun.
      by injection Hrun as _ <-.
    + destruct (get_player_color_new _ _ _ _ Hq Hl) as (h1 & Hrun1 & Hm & _).
      rewrite Hrun1 in Hrun. injection Hrun as _ <-.
      rewrite Hm, lookup_insert_ne; [done|]. intros ->. congruence.
Qed.

Lemma get_player_color_recorded p c h h' :
  _get_player_color self p h = (Ok c, h') ->
  colormap self h' !! p = Some c.
Proof.
  intros Hrun.
  destruct (colormap self h !! p) as [c0|] eqn:Hp.
  - rewrite (get_player_color_known _ _ _ Hp) in Hrun.
    by injection Hrun as <- <-.
  - destruct (unused self h) as [|c0 rest] eqn:Hl.
    + by rewrite (get_player_color_exhausted _ _ Hp Hl) in Hrun.
    + destruct (get_player_color_new _ _ _ _ Hp Hl) as (h1 & Hrun1 & Hm & _).
      rewrite Hrun1 in Hrun. injection Hrun as <- <-.
      by rewrite Hm, lookup_insert_eq.
Qed.

(** A player who has a colour is returned it by every later request,
    whatever is requested in between. *)
Lemma requests_served_again p c ps : forall h j,
  colormap self h !! p = Some c ->
  ps !! j = Some p ->
  (requests self ps h).1 !! j = Some (Ok c).
Proof.
  induction ps as [|q ps IH]; intros h j Hp Hj; [done|]. simpl.
  destruct (_get_player_color self q h) as [x h1] eqn:Hstep.
  pose proof (get_player_color_keeps _ _ _ _ _ _ Hp Hstep) as Hp1.
  specialize (IH h1). destruct (requests self ps h1) as [xs h2]. simpl in *.
  destruct j as [|j]; simpl in *.
  - injection Hj as ->.
    rewrite (get_player_color_known _ _ _ Hp) in Hstep.
    by injection Hstep as <- _.
  - by apply IH.
Qed.

Lemma requests_repeat ps : forall h i j p c,
  (i <= j)%nat ->
  ps !! i = Some p -> ps !! j = Some p ->
  (requests self ps h).1 !! i = Some (Ok c) ->
  (requests self ps h).1 !! j = Some (Ok c).
Proof.
  induction ps as [|q ps IH]; intros h i j p c Hij Hi Hj; [done|]. simpl.
  destruct (_get_player_color self q h) as [x h1] eqn:Hstep.
  pose proof (IH h1) as IH1.
  pose proof (requests_served_again p c ps h1) as Hagain.
  destruct (requests self ps h1) as [xs h2]. simpl in *.
  destruct i as [|i]; simpl in *.
  - injection Hi as ->. intros [= ->].
    destruct j as [|j]; simpl in *; [done|].
    apply Hagain; [|done]. by eapply get_player_color_recorded.
  - destruct j as [|j]; [lia|]. simpl in *.
    apply (IH1 i j p c); [lia|done..].
Qed.

End color_policy.

(** C2: two renderers built with default arguments hold the same list and
    the same dictionary: a colour request on the first takes a colour off
    the palette of the second and records the player in its map. *)
Theorem C2_default_renderers_share_color_state (p : Player) :
  let r1 := BoardRenderer__init__ None None None in
  let r2 := BoardRenderer__init__ None None None in
  unused r2 heap_after_import = palette /\
  colormap r2 heap_after_import = ∅ /\
  exists h',
    _get_player_color r1 p heap_after_import = (Ok "#00c40d", h') /\
    unused r2 h' = ["#ff00d9"; "#0000FF"; "#00FFFF"] /\
    colormap r2 h' = {[ p := "#00c40d" ]}.
Proof.
  intros r1 r2.
  assert (Hu : unused r1 heap_after_import = palette).
  { unfold unused. simpl. apply lookup_total_singleton_eq. }
  assert (Hm : colormap r1 heap_after_import = ∅).
  { unfold colormap. simpl. apply lookup_total_singleton_eq. }
  split_and!; [done..|].
  destruct (get_player_color_new r1 p heap_after_import "#00c40d"
              ["#ff00d9"; "#0000FF"; "#00FFFF"])
    as (h' & Hrun & Hm' & Hu'); [by rewrite Hm|done|].
  exists h'. split_and!; [done..|].
  change (colormap r2 h') with (colormap r1 h'). by rewrite Hm', Hm.
Qed.

(** C3: on a renderer whose colour map is empty and whose palette is
    full, however colour requests follow one another: two requests that
    return do so with the same colour exactly when they are for the same
    player; once a request for a player has returned a colour, every
    later request for that player returns that colour; and requests for
    two distinct players do return, with distinct colours, and return the
    same colours when repeated. *)
Theorem C3_colors_distinct_and_stable (self : BoardRenderer) (h : heap) :
  colormap self h = ∅ ->
  unused self h = palette ->
  (forall ps i j pi pj ci cj,
      ps !! i = Some pi -> ps !! j = Some pj ->
      (requests self ps h).1 !! i = Some (Ok ci) ->
      (requests self ps h).1 !! j = Some (Ok cj) ->
      (pi = pj <-> ci = cj)) /\
  (forall ps i j p c,
      (i <= j)%nat ->
      ps !! i = Some p -> ps !! j = Some p ->
      (requests self ps h).1 !! i = Some (Ok c) ->
      (requests self ps h).1 !! j = Some (Ok c)) /\
  (forall p1 p2, p1 <> p2 ->
      exists c1 c2,
        (requests self [p1; p2; p1; p2] h).1 = [Ok c1; Ok c2; Ok c1; Ok c2] /\
        c1 <> c2).
Proof.
  intros Hm Hu. split_and!.
  - intros ps i j pi pj ci cj Hpi Hpj Hci Hcj.
    destruct (requests self ps h) as [rs h'] eqn:Hrun. simpl in *.
    destruct (requests_inv self ps h rs h' (fresh_color_inv self h Hm Hu) Hrun)
      as ((_ & _ & Hinj) & _ & Hrs).
    pose proof (Hrs _ _ _ Hpi Hci) as Hi.
    pose proof (Hrs _ _ _ Hpj Hcj) as Hj.
    split.
    + intros ->. congruence.
    + intros ->. eauto.
  - intros ps i j p c. apply requests_repeat.
  - intros p1 p2 Hne. exists "#00c40d", "#ff00d9". split; [|done].
    destruct (get_player_color_new self p1 h "#00c40d"
                ["#ff00d9"; "#0000FF"; "#00FFFF"])
      as (h1 & Hrun1 & Hm1 & Hu1); [by rewrite Hm|done|].
    destruct (get_player_color_new self p2 h1 "#ff00d9" ["#0000FF"; "#00FFFF"])
      as (h2 & Hrun2 & Hm2 & Hu2);
      [by rewrite Hm1, Hm, lookup_insert_ne|done|].
    assert (H1 : colormap self h2 !! p1 = Some "#00c40d").
    { by rewrite Hm2, Hm1, lookup_insert_ne, lookup_insert_eq. }
    assert (H2 : colormap self h2 !! p2 = Some "#ff00d9").
    { by rewrite Hm2, lookup_insert_eq. }
    simpl. rewrite Hrun1, Hrun2.
    rewrite (get_player_color_known self p1 h2 _ H1).
    by rewrite (get_player_color_known self p2 h2 _ H2).
Qed.

Lemma C3_colors_distinct_and_stable_witness :
  let self := BoardRenderer__init__ None None None in
  let ps := [7; 9; 8; 6; 5; 7; 7]%positive in
  colormap self heap_after_import = ∅ /\
  unused self heap_after_import = palette /\
  (requests self ps heap_after_import).1 !! 0%nat = Some (Ok "#00c40d") /\
  (requests self ps heap_after_import).1 !! 6%nat = Some (Ok "#00c40d") /\
  exists c1 c2,
    (requests self [7; 9; 7; 9]%positive heap_after_import).1
    = [Ok c1; Ok c2; Ok c1; Ok c2] /\ c1 <> c2.
Proof.
  intros self ps.
  assert (Hm : colormap self heap_after_import = ∅)
    by apply lookup_total_singleton_eq.
  assert (Hu : unused self heap_after_import = palette)
    by apply lookup_total_singleton_eq.
  assert (Hfirst : (requests self ps heap_after_import).1 !! 0%nat
                   = Some (Ok "#00c40d")) by reflexivity.
  destruct (C3_colors_distinct_and_stable self heap_after_import Hm Hu)
    as (_ & Hrepeat & Htwo).
  split_and!; [done..| |].
  - apply (Hrepeat ps 0%nat 6%nat 7%positive "#00c40d");
      [lia|reflexivity|reflexivity|exact Hfirst].
  - by apply Htwo.
Defined.

(** The store that a first renderer, constructed with default arguments,
    leaves when it has served four players. *)
Example palette_used_up :
  unused (BoardRenderer__init__ None None None)
    (requests (BoardRenderer__init__ None None None) [1; 2; 3; 4]%positive
              heap_after_import).2 = [].
Proof. reflexivity. Qed.




(* ===================================================================== *)
(** * Properties of the glyph compositor                                  *)
(* ===================================================================== *)

Lemma contains_keys `{EqDecision K} {V} (d : list (K * V)) (k : K) :
  contains d k = true <-> k ∈ keys d.
Proof.
  unfold contains, keys. rewrite bool_decide_eq_true.
  induction d as [|[k' v] d IH]; simpl.
  - split; [by intros [? ?]|by intros ?%elem_of_nil].
  - rewrite elem_of_cons. case_decide; subst.
    + split; eauto.
    + rewrite IH. naive_solver.
Qed.

(** C5: for a path whose coordinate pair keys a harbor: with no building
    on it the edge glyph is each character in black on the unowned
    background; with a building on it the glyph is in the colour of the
    building's owner instead. *)
Theorem C5_harbor_edge_colors
  (self : BoardRenderer) (chars : list string) (path : Path.t)
  (board : Board.t) (h : heap) (back : string) :
  Path.path_coords path ∈ keys (Board.harbors board) ->
  hex_color_map self !! DESERT = Some back ->
  (Path.building path = None ->
   _get_path self chars path board h =
   (Ok (map (fun x => stylize (Str x) (Cat (fg "#000000") (bg back))) chars),
    h)) /\
  (forall b color h',
      Path.building path = Some b ->
      _get_player_color self (owner b) h = (Ok color, h') ->
      _get_path self chars path board h =
      (Ok (map (fun x => stylize (Str x) (Cat (fg color) (bg back))) chars),
       h')).
Proof.
  intros Hharbor%contains_keys Hback.
  unfold _get_path, mbind, M_bind, lift, getitem. rewrite Hback.
  split.
  - intros ->. by rewrite Hharbor.
  - intros b color h' -> Hcol. by rewrite Hcol.
Qed.

(** C7: a corner without a building is the placeholder character passed
    in, in the unowned foreground on the unowned background; a corner
    with a SETTLEMENT is [s] and one with a CITY is [c], in the colour of
    the owner. *)
Theorem C7_corner_glyph
  (self : BoardRenderer) (char : string) (i : Intersection.t)
  (h : heap) (back : string) :
  hex_color_map self !! DESERT = Some back ->
  (Intersection.building i = None ->
   _get_intersection self char i h =
   (Ok [stylize (Str char) (Cat (fg "#9c7500") (bg back))], h)) /\
  (forall b color h',
      Intersection.building i = Some b ->
      _get_player_color self (owner b) h = (Ok color, h') ->
      (building_type b = SETTLEMENT ->
       _get_intersection self char i h =
       (Ok [stylize (Str "s") (Cat (fg color) (bg back))], h')) /\
      (building_type b = CITY ->
       _get_intersection self char i h =
       (Ok [stylize (Str "c") (Cat (fg color) (bg back))], h'))).
Proof.
  intros Hback.
  unfold _get_intersection, mbind, M_bind, lift, getitem. rewrite Hback.
  split.
  - by intros ->.
  - intros b color h' -> Hcol. rewrite Hcol. split; by intros ->.
Qed.

(** C10: a corner whose building has any type other than SETTLEMENT is
    [c] in the colour of the owner. *)
Theorem C10_non_settlement_is_c
  (self : BoardRenderer) (char : string) (i : Intersection.t)
  (h h' : heap) (back color : string) (b : Building) :
  hex_color_map self !! DESERT = Some back ->
  Intersection.building i = Some b ->
  building_type b <> SETTLEMENT ->
  _get_player_color self (owner b) h = (Ok color, h') ->
  _get_intersection self char i h =
  (Ok [stylize (Str "c") (Cat (fg color) (bg back))], h').
Proof.
  intros Hback Hb Hty Hcol.
  unfold _get_intersection, mbind, M_bind, lift, getitem.
  rewrite Hback, Hb, Hcol. by rewrite decide_False.
Qed.

(** C6: a token of 6 or 8 is red on white, any other token is black on
    white, and a hex without a token has five blank cells in its terrain
    colour. *)
Theorem C6_hex_center
  (self : BoardRenderer) (hx : Hex.t) (terrain : string) :
  hex_color_map self !! Hex.hex_type hx = Some terrain ->
  let space := stylize (Str " ") (bg terrain) in
  (Hex.token_number hx = None ->
   _get_hex_center self hx = Ok [space; space; space; space; space]) /\
  (forall n, Hex.token_number hx = Some n -> n = 6 \/ n = 8 ->
     _get_hex_center self hx =
     Ok [space; space;
         stylize (Int n) (Cat (fg "#FF0000") (bg "#FFFFFF"));
         space; space]) /\
  (forall n, Hex.token_number hx = Some n -> n <> 6 -> n <> 8 ->
     _get_hex_center self hx =
     Ok [space; if n <? 10 then space else Lit "";
         stylize (Int n) (Cat (fg "#000000") (bg "#FFFFFF"));
         space; space]).
Proof.
  intros Hc space. unfold _get_hex_center, mbind, result_bind, getitem.
  rewrite Hc. split_and!.
  - by intros ->.
  - intros n -> [->| ->]; reflexivity.
  - intros n -> H6 H8.
    apply Z.eqb_neq in H6, H8. simpl. by rewrite H6, H8.
Qed.

(* ===================================================================== *)
(** * Determinism of the canvas compositor                                *)
(* ===================================================================== *)

Section stability.
Variable self : BoardRenderer.

Lemma grows_refl h : grows self h h.
Proof. by unfold grows. Qed.

Lemma grows_trans h1 h2 h3 : grows self h1 h2 -> grows self h2 h3 -> grows self h1 h3.
Proof. unfold grows. intros. by etrans. Qed.

Lemma stable_ret {A} (a : A) : stable self (mret a).
Proof.
  intros h a' h' [= <- <-]. split; [apply grows_refl|done].
Qed.

Lemma stable_lift {A} (x : result A) : stable self (lift x).
Proof.
  intros h a h' [= -> <-]. split; [apply grows_refl|done].
Qed.

Lemma stable_bind {A B} (m : M A) (f : A -> M B) :
  stable self m -> (forall a, stable self (f a)) -> stable self (m ≫= f).
Proof.
  intros Hm Hf h b h2. unfold mbind, M_bind.
  destruct (m h) as [[a|e] h1] eqn:Hrun; [|done].
  intros Hrun2.
  destruct (Hm _ _ _ Hrun) as [Hg1 Hre1].
  destruct (Hf a _ _ _ Hrun2) as [Hg2 Hre2].
  split; [by eapply grows_trans|].
  intros h'' Hg.
  rewrite (Hre1 h'') by (by eapply grows_trans).
  by apply Hre2.
Qed.

Lemma stable_foldM {A B} (f : B -> A -> M B) (l : list A) :
  (forall b a, stable self (f b a)) -> forall b, stable self (foldM f b l).
Proof.
  intros Hf. induction l as [|a l IH]; intros b; simpl.
  - apply stable_ret.
  - apply stable_bind; [apply Hf|apply IH].
Qed.

Lemma stable_get_player_color p : stable self (_get_player_color self p).
Proof.
  intros h c h' Hrun.
  assert (grows self h h' /\ colormap self h' !! p = Some c) as [Hg Hp'].
  { destruct (colormap self h !! p) as [c0|] eqn:Hp.
    - rewrite (get_player_color_known _ _ _ _ Hp) in Hrun.
      injection Hrun as <- <-. split; [apply grows_refl|done].
    - destruct (unused self h) as [|c0 rest] eqn:Hl.
      + by rewrite (get_player_color_exhausted _ _ _ Hp Hl) in Hrun.
      + destruct (get_player_color_new _ _ _ _ _ Hp Hl)
          as (h1 & Hrun1 & Hm & _).
        rewrite Hrun1 in Hrun. injection Hrun as <- <-.
        unfold grows. rewrite Hm. split; [by apply insert_subseteq|].
        by rewrite lookup_insert_eq. }
  split; [done|].
  intros h'' Hg'. apply get_player_color_known.
  by eapply lookup_weaken.
Qed.

Ltac stable_step :=
  match goal with
  | |- stable _ (mret _) => apply stable_ret
  | |- stable _ (lift _) => apply stable_lift
  | |- stable _ (_get_player_color _ _) => apply stable_get_player_color
  | |- stable _ (foldM _ _ _) => apply stable_foldM; intros
  | |- stable _ (_ ≫= _) => apply stable_bind; [|intros]
  | |- stable _ (match ?x with _ => _ end) => destruct x
  | |- stable _ (let _ := _ in _) => cbv zeta
  end.

Lemma stable_get_path chars path board :
  stable self (_get_path self chars path board).
Proof. unfold _get_path. repeat stable_step. Qed.

Lemma stable_get_intersection char i :
  stable self (_get_intersection self char i).
Proof. unfold _get_intersection. repeat stable_step. Qed.

Lemma stable_get_hex board coords : stable self (_get_hex self board coords).
Proof.
  unfold _get_hex.
  repeat first
    [ apply stable_get_path | apply stable_get_intersection | stable_step ].
Qed.

Lemma stable_get_board_as_string offsets board :
  stable self (get_board_as_string offsets self board).
Proof.
  unfold get_board_as_string.
  repeat first [ apply stable_get_hex | stable_step ].
Qed.

End stability.

(** C8: when a call of [get_board_as_string] returns a string, a second
    call on the same renderer and the same board, in the store the first
    call left, returns the same string, and leaves the store as it is. *)
Theorem C8_rendering_deterministic
  (CONNECTED_CORNER_OFFSETS : list Coords)
  (self : BoardRenderer) (board : Board.t) (h h1 : heap) (s : pystr) :
  get_board_as_string CONNECTED_CORNER_OFFSETS self board h = (Ok s, h1) ->
  get_board_as_string CONNECTED_CORNER_OFFSETS self board h1 = (Ok s, h1).
Proof.
  intros Hrun.
  destruct (stable_get_board_as_string self CONNECTED_CORNER_OFFSETS board
              h s h1 Hrun) as [_ Hreplay].
  apply Hreplay, grows_refl.
Qed.

Lemma C8_rendering_deterministic_witness :
  exists s h1,
    get_board_as_string spec_CONNECTED_CORNER_OFFSETS sample_renderer
      sample_board heap_after_import = (Ok s, h1) /\
    get_board_as_string spec_CONNECTED_CORNER_OFFSETS sample_renderer
      sample_board h1 = (Ok s, h1).
Proof.
  destruct (get_board_as_string spec_CONNECTED_CORNER_OFFSETS sample_renderer
              sample_board heap_after_import) as [[s|e] h1] eqn:Hrun.
  - exists s, h1. split; [reflexivity|].
    exact (C8_rendering_deterministic _ _ _ _ _ _ Hrun).
  - vm_compute in Hrun. discriminate Hrun.
Defined.

Lemma C5_harbor_edge_colors_witness :
  let free := Path.mk {[mkCoords 1 (-1); mkCoords 1 0]} None in
  let owned := Path.mk {[mkCoords 1 (-1); mkCoords 1 0]} (Some sample_road) in
  Path.path_coords free ∈ keys (Board.harbors sample_board) /\
  hex_color_map sample_renderer !! DESERT = Some "#ffe5a3" /\
  _get_path sample_renderer ["-"; "-"] free sample_board heap_after_import =
  (Ok [stylize (Str "-") (Cat (fg "#000000") (bg "#ffe5a3"));
       stylize (Str "-") (Cat (fg "#000000") (bg "#ffe5a3"))],
   heap_after_import) /\
  exists h',
    _get_player_color sample_renderer (owner sample_road) heap_after_import
    = (Ok "#00c40d", h') /\
    _get_path sample_renderer ["-"; "-"] owned sample_board heap_after_import =
    (Ok [stylize (Str "-") (Cat (fg "#00c40d") (bg "#ffe5a3"));
         stylize (Str "-") (Cat (fg "#00c40d") (bg "#ffe5a3"))],
     h').
Proof.
  intros free owned.
  assert (Hin : Path.path_coords free ∈ keys (Board.harbors sample_board))
    by (simpl; left).
  assert (Hback : hex_color_map sample_renderer !! DESERT = Some "#ffe5a3")
    by reflexivity.
  split_and!; [done..| |].
  - apply (C5_harbor_edge_colors sample_renderer ["-"; "-"] free sample_board
             heap_after_import "#ffe5a3" Hin Hback).
    reflexivity.
  - destruct (_get_player_color sample_renderer (owner sample_road)
                heap_after_import) as [x h'] eqn:Hrun.
    assert (Hx : x = Ok "#00c40d").
    { vm_compute in Hrun. by injection Hrun as <- _. }
    subst x. exists h'. split; [done|].
    exact (proj2 (C5_harbor_edge_colors sample_renderer ["-"; "-"] owned
                    sample_board heap_after_import "#ffe5a3" Hin Hback)
                 sample_road "#00c40d" h' eq_refl Hrun).
Defined.

Lemma C7_corner_glyph_witness :
  let town := Intersection.mk (Some sample_settlement) in
  hex_color_map sample_renderer !! DESERT = Some "#ffe5a3" /\
  _get_intersection sample_renderer "." (Intersection.mk None)
    heap_after_import =
  (Ok [stylize (Str ".") (Cat (fg "#9c7500") (bg "#ffe5a3"))],
   heap_after_import) /\
  exists h',
    _get_player_color sample_renderer (owner sample_settlement)
      heap_after_import = (Ok "#00c40d", h') /\
    _get_intersection sample_renderer "." town heap_after_import =
    (Ok [stylize (Str "s") (Cat (fg "#00c40d") (bg "#ffe5a3"))], h').
Proof.
  intros town.
  assert (Hback : hex_color_map sample_renderer !! DESERT = Some "#ffe5a3")
    by reflexivity.
  split_and!; [done| |].
  - apply (C7_corner_glyph sample_renderer "." (Intersection.mk None)
             heap_after_import "#ffe5a3" Hback).
    reflexivity.
  - destruct (_get_player_color sample_renderer (owner sample_settlement)
                heap_after_import) as [x h'] eqn:Hrun.
    assert (Hx : x = Ok "#00c40d").
    { vm_compute in Hrun. by injection Hrun as <- _. }
    subst x. exists h'. split; [done|].
    exact (proj1 (proj2 (C7_corner_glyph sample_renderer "." town
                           heap_after_import "#ffe5a3" Hback)
                        sample_settlement "#00c40d" h' eq_refl Hrun)
                 eq_refl).
Defined.

Lemma C10_non_settlement_is_c_witness :
  let b := CornerBuilding__init__ 1%positive ROAD (mkCoords 1 0) in
  exists h',
    hex_color_map sample_renderer !! DESERT = Some "#ffe5a3" /\
    building_type b <> SETTLEMENT /\
    _get_player_color sample_renderer (owner b) heap_after_import
    = (Ok "#00c40d", h') /\
    _get_intersection sample_renderer "." (Intersection.mk (Some b))
      heap_after_import =
    (Ok [stylize (Str "c") (Cat (fg "#00c40d") (bg "#ffe5a3"))], h').
Proof.
  intros b.
  destruct (_get_player_color sample_renderer (owner b) heap_after_import)
    as [x h'] eqn:Hrun.
  assert (Hx : x = Ok "#00c40d").
  { vm_compute in Hrun. by injection Hrun as <- _. }
  subst x. exists h'.
  assert (Hback : hex_color_map sample_renderer !! DESERT = Some "#ffe5a3")
    by reflexivity.
  assert (Hty : building_type b <> SETTLEMENT) by discriminate.
  split_and!; [done..|].
  exact (C10_non_settlement_is_c sample_renderer "."
           (Intersection.mk (Some b)) heap_after_import h' "#ffe5a3"
           "#00c40d" b Hback eq_refl Hty Hrun).
Defined.

Lemma C6_hex_center_witness :
  hex_color_map sample_renderer !! FIELDS = Some "#ffea29" /\
  _get_hex_center sample_renderer (Hex.mk FIELDS (Some 8)) =
  Ok [stylize (Str " ") (bg "#ffea29"); stylize (Str " ") (bg "#ffea29");
      stylize (Int 8) (Cat (fg "#FF0000") (bg "#FFFFFF"));
      stylize (Str " ") (bg "#ffea29"); stylize (Str " ") (bg "#ffea29")].
Proof.
  assert (Hc : hex_color_map sample_renderer !! FIELDS = Some "#ffea29")
    by reflexivity.
  split; [done|].
  apply (C6_hex_center sample_renderer (Hex.mk FIELDS (Some 8)) "#ffea29" Hc).
  - reflexivity.
  - by right.
Defined.

(* ===================================================================== *)
(** * Properties of the roll-yield bookkeeping                            *)
(* ===================================================================== *)

(** A new [RollYield] has every resource at 0 and no source. *)
Lemma RollYield_init_total (resource : Resource) :
  total_yield RollYield__init__ !! resource = Some 0.
Proof. by destruct resource. Qed.

(** C9: the constructor of [RollYieldSource] keeps the building and the
    hex and nothing of the resource and the amount; [add_yield] adds the
    amount to the total of the resource and puts the class object, not
    the source passed in, into [all_yields]. *)
Theorem C9_roll_yield_bookkeeping
  (self : RollYield) (resource : Resource) (amount n : Z) (source : pyref) :
  total_yield self !! resource = Some n ->
  (forall res am res' am' b hx,
      RollYieldSource__init__ res am b hx = mkRollYieldSource b hx /\
      RollYieldSource__init__ res am b hx =
      RollYieldSource__init__ res' am' b hx) /\
  exists self',
    add_yield self resource amount source = Ok self' /\
    total_yield self' !! resource = Some (n + amount) /\
    (forall r', r' <> resource ->
                total_yield self' !! r' = total_yield self !! r') /\
    all_yields self' = {[ RollYieldSource_class ]} ∪ all_yields self /\
    RollYieldSource_class ∈ all_yields self' /\
    (forall id, RollYieldSource_instance id ∈ all_yields self' <->
                RollYieldSource_instance id ∈ all_yields self).
Proof.
  intros Hn. split; [done|].
  unfold add_yield, mbind, result_bind, getitem. rewrite Hn.
  eexists. split; [reflexivity|]. simpl. split_and!.
  - by rewrite lookup_insert_eq.
  - intros r' Hne. by rewrite lookup_insert_ne.
  - done.
  - set_solver.
  - intros id. set_solver.
Qed.

Lemma C9_roll_yield_bookkeeping_witness :
  total_yield RollYield__init__ !! ORE = Some 0 /\
  exists self',
    add_yield RollYield__init__ ORE 2 (RollYieldSource_instance 1) = Ok self' /\
    total_yield self' !! ORE = Some 2 /\
    RollYieldSource_class ∈ all_yields self' /\
    RollYieldSource_instance 1 ∉ all_yields self'.
Proof.
  assert (Hn : total_yield RollYield__init__ !! ORE = Some 0)
    by apply RollYield_init_total.
  split; [done|].
  destruct (C9_roll_yield_bookkeeping RollYield__init__ ORE 2 0
              (RollYieldSource_instance 1) Hn)
    as (_ & self' & Hrun & Htot & _ & _ & Hcls & Hinst).
  exists self'. split_and!; [done..|].
  rewrite Hinst. apply not_elem_of_empty.
Defined.

(* ===================================================================== *)
(** * Further properties of the colour policy                             *)
(* ===================================================================== *)

(** X1: a colour request raises only when the player has no colour and
    the palette is empty; it then raises [IndexError] and leaves the store
    as it was. *)
Theorem X1_color_request_failure
  (self : BoardRenderer) (p : Player) (h h' : heap) (e : exn) :
  _get_player_color self p h = (Raise e, h') <->
  e = IndexError /\ h' = h /\
  colormap self h !! p = None /\ unused self h = [].
Proof.
  split.
  - intros Hrun.
    destruct (colormap self h !! p) as [c|] eqn:Hp.
    { by rewrite (get_player_color_known self p h c Hp) in Hrun. }
    destruct (unused self h) as [|c rest] eqn:Hl.
    + rewrite (get_player_color_exhausted self p h Hp Hl) in Hrun.
      by injection Hrun as <- <-.
    + destruct (get_player_color_new self p h c rest Hp Hl)
        as (h1 & Hrun1 & _).
      by rewrite Hrun1 in Hrun.
  - intros (-> & -> & Hp & Hl). by apply get_player_color_exhausted.
Qed.

Lemma requests_palette_order (self : BoardRenderer) (ps : list Player) :
  forall h,
    NoDup ps ->
    (forall p, p ∈ ps -> colormap self h !! p = None) ->
    (requests self ps h).1 =
      ((Ok <$> take (length ps) (unused self h))
       ++ replicate (length ps - length (unused self h)) (Raise IndexError))%list
    /\ unused self (requests self ps h).2 = drop (length ps) (unused self h).
Proof.
  induction ps as [|p ps IH]; intros h Hnd Hnew; simpl.
  - by rewrite drop_0.
  - apply NoDup_cons in Hnd as [Hp Hnd].
    assert (Hpn : colormap self h !! p = None) by (apply Hnew; left).
    destruct (unused self h) as [|c rest] eqn:Hl.
    + rewrite (get_player_color_exhausted self p h Hpn Hl).
      destruct (IH h Hnd) as [IH1 IH2].
      { intros p' Hp'. apply Hnew. by right. }
      destruct (requests self ps h) as [xs h2]. simpl in *.
      rewrite Hl in IH1, IH2. rewrite take_nil in IH1. simpl in IH1.
      rewrite drop_nil in IH2. rewrite Nat.sub_0_r in IH1.
      by rewrite IH1, IH2.
    + destruct (get_player_color_new self p h c rest Hpn Hl)
        as (h1 & Hrun1 & Hm1 & Hu1).
      rewrite Hrun1.
      destruct (IH h1 Hnd) as [IH1 IH2].
      { intros p' Hp'. rewrite Hm1, lookup_insert_ne.
        - apply Hnew. by right.
        - intros ->. done. }
      destruct (requests self ps h1) as [xs h2]. simpl in *.
      rewrite Hu1 in IH1, IH2. by rewrite IH1, IH2.
Qed.

(** X2: players that have no colour yet, asking one after the other, are
    given the colours of the palette in its order; when the palette is
    used up the remaining requests raise [IndexError]; the colours handed
    out are removed from the front of the palette. *)
Theorem X2_palette_order
  (self : BoardRenderer) (ps : list Player) (h : heap) :
  NoDup ps ->
  (forall p, p ∈ ps -> colormap self h !! p = None) ->
  (requests self ps h).1 =
    ((Ok <$> take (length ps) (unused self h))
     ++ replicate (length ps - length (unused self h)) (Raise IndexError))%list
  /\ unused self (requests self ps h).2 = drop (length ps) (unused self h).
Proof. apply requests_palette_order. Qed.

Lemma X2_palette_order_witness :
  let ps := [3; 1; 4; 5; 9]%positive in
  NoDup ps /\
  (forall p, p ∈ ps -> colormap sample_renderer heap_after_import !! p = None) /\
  (requests sample_renderer ps heap_after_import).1 =
  [Ok "#00c40d"; Ok "#ff00d9"; Ok "#0000FF"; Ok "#00FFFF"; Raise IndexError].
Proof.
  intros ps.
  assert (Hnd : NoDup ps) by compute_done.
  assert (Hnew : forall p, p ∈ ps ->
                 colormap sample_renderer heap_after_import !! p = None).
  { intros p _. unfold colormap. simpl.
    by rewrite lookup_total_singleton_eq, lookup_empty. }
  split_and!; [done..|].
  exact (proj1 (X2_palette_order sample_renderer ps heap_after_import Hnd Hnew)).
Defined.

(* ===================================================================== *)
(** * What rendering does to the store                                    *)
(* ===================================================================== *)

Section respects.
Context {R : heap -> heap -> Prop} `{!PreOrder R}.
Variable self : BoardRenderer.
Hypothesis respects_color : forall p, respects R (_get_player_color self p).

Lemma respects_ret {A} (a : A) : respects R (mret a).
Proof. intros h x h' [= <- <-]. reflexivity. Qed.

Lemma respects_lift {A} (x : result A) : respects R (lift x).
Proof. intros h x' h' [= <- <-]. reflexivity. Qed.

Lemma respects_bind {A B} (m : M A) (f : A -> M B) :
  respects R m -> (forall a, respects R (f a)) -> respects R (m ≫= f).
Proof.
  intros Hm Hf h y h2. unfold mbind, M_bind.
  destruct (m h) as [[a|e] h1] eqn:Hrun.
  - intros Hrun2. etrans; [by eapply Hm|by eapply Hf].
  - intros [= <- <-]. by eapply Hm.
Qed.

Lemma respects_foldM {A B} (f : B -> A -> M B) (l : list A) :
  (forall b a, respects R (f b a)) -> forall b, respects R (foldM f b l).
Proof.
  intros Hf. induction l as [|a l IH]; intros b; simpl.
  - apply respects_ret.
  - apply respects_bind; [apply Hf|apply IH].
Qed.

Ltac respects_step :=
  match goal with
  | |- respects _ (mret _) => apply respects_ret
  | |- respects _ (lift _) => apply respects_lift
  | |- respects _ (_get_player_color _ _) => apply respects_color
  | |- respects _ (foldM _ _ _) => apply respects_foldM; intros
  | |- respects _ (_ ≫= _) => apply respects_bind; [|intros]
  | |- respects _ (match ?x with _ => _ end) => destruct x
  | |- respects _ (let _ := _ in _) => cbv zeta
  end.

Lemma respects_get_path chars path board :
  respects R (_get_path self chars path board).
Proof. unfold _get_path. repeat respects_step. Qed.

Lemma respects_get_intersection char i :
  respects R (_get_intersection self char i).
Proof. unfold _get_intersection. repeat respects_step. Qed.

Lemma respects_get_hex board coords :
  respects R (_get_hex self board coords).
Proof.
  unfold _get_hex.
  repeat first
    [ apply respects_get_path | apply respects_get_intersection
    | respects_step ].
Qed.

Lemma respects_get_board_as_string offsets board :
  respects R (get_board_as_string offsets self board).
Proof.
  unfold get_board_as_string.
  repeat first [ apply respects_get_hex | respects_step ].
Qed.

End respects.

#[local] Instance grows_preorder self : PreOrder (grows self).
Proof.
  split; [intros h; apply grows_refl|intros h1 h2 h3; apply grows_trans].
Qed.

#[local] Instance frame_preorder self : PreOrder (frame self).
Proof.
  split.
  - by intros h.
  - intros h1 h2 h3 [Hl1 Hd1] [Hl2 Hd2]. split.
    + intros l Hl. by rewrite Hl2, Hl1.
    + intros d Hd. by rewrite Hd2, Hd1.
Qed.

Lemma get_player_color_grows self p :
  respects (grows self) (_get_player_color self p).
Proof.
  intros h x h' Hrun.
  destruct (colormap self h !! p) as [c|] eqn:Hp.
  - rewrite (get_player_color_known self p h c Hp) in Hrun.
    injection Hrun as <- <-. apply grows_refl.
  - destruct (unused self h) as [|c rest] eqn:Hl.
    + rewrite (get_player_color_exhausted self p h Hp Hl) in Hrun.
      injection Hrun as <- <-. apply grows_refl.
    + destruct (get_player_color_new self p h c rest Hp Hl)
        as (h1 & Hrun1 & Hm & _).
      rewrite Hrun1 in Hrun. injection Hrun as <- <-.
      unfold grows. rewrite Hm. by apply insert_subseteq.
Qed.

Lemma get_player_color_frame self p :
  respects (frame self) (_get_player_color self p).
Proof.
  intros h x h'.
  unfold _get_player_color, mbind, M_bind, dict_contains, list_pop0,
    dict_setitem, dict_getitem, mret, M_ret.
  destruct (bool_decide _); simpl.
  - intros [= <- <-]. reflexivity.
  - destruct (lists h !!! _unused_player_colors self) as [|c rest]; simpl.
    + intros [= <- <-]. reflexivity.
    + intros [= <- <-]. split; simpl.
      * intros l Hl. by rewrite lookup_insert_ne.
      * intros d Hd. by rewrite lookup_insert_ne.
Qed.

(** X3: a call of [get_board_as_string], whether it returns or raises,
    leaves every player who had a colour with that colour. *)
Theorem X3_rendering_keeps_colors
  (CONNECTED_CORNER_OFFSETS : list Coords) (self : BoardRenderer)
  (board : Board.t) (h h' : heap) (x : result pystr)
  (p : Player) (c : string) :
  get_board_as_string CONNECTED_CORNER_OFFSETS self board h = (x, h') ->
  colormap self h !! p = Some c ->
  colormap self h' !! p = Some c.
Proof.
  intros Hrun Hp.
  eapply lookup_weaken; [exact Hp|].
  exact (respects_get_board_as_string self (get_player_color_grows self)
           CONNECTED_CORNER_OFFSETS board h x h' Hrun).
Qed.

(** X4: a call of [get_board_as_string], whether it returns or raises,
    changes no list in the store but the palette of the renderer and no
    dictionary but its colour map. *)
Theorem X4_rendering_frame
  (CONNECTED_CORNER_OFFSETS : list Coords) (self : BoardRenderer)
  (board : Board.t) (h h' : heap) (x : result pystr) :
  get_board_as_string CONNECTED_CORNER_OFFSETS self board h = (x, h') ->
  (forall l, l <> _unused_player_colors self ->
             lists h' !! l = lists h !! l) /\
  (forall d, d <> player_color_map self ->
             dicts h' !! d = dicts h !! d).
Proof.
  intros Hrun.
  exact (respects_get_board_as_string self (get_player_color_frame self)
           CONNECTED_CORNER_OFFSETS board h x h' Hrun).
Qed.

(** X5: colours are stable across calls: when rendering board A returns a
    string, and rendering any board B on the same renderer returns next,
    rendering A again returns the string it returned the first time. *)
Theorem X5_rendering_stable_across_boards
  (CONNECTED_CORNER_OFFSETS : list Coords) (self : BoardRenderer)
  (boardA boardB : Board.t) (h h1 h2 : heap) (sA sB : pystr) :
  get_board_as_string CONNECTED_CORNER_OFFSETS self boardA h = (Ok sA, h1) ->
  get_board_as_string CONNECTED_CORNER_OFFSETS self boardB h1 = (Ok sB, h2) ->
  get_board_as_string CONNECTED_CORNER_OFFSETS self boardA h2 = (Ok sA, h2).
Proof.
  intros HA HB.
  destruct (stable_get_board_as_string self CONNECTED_CORNER_OFFSETS boardA
              h sA h1 HA) as [_ Hreplay].
  destruct (stable_get_board_as_string self CONNECTED_CORNER_OFFSETS boardB
              h1 sB h2 HB) as [Hgrow _].
  by apply Hreplay.
Qed.

Lemma requests_frame self ps : forall h, frame self h (requests self ps h).2.
Proof.
  induction ps as [|p ps IH]; intros h; simpl; [reflexivity|].
  destruct (_get_player_color self p h) as [x h1] eqn:Hstep.
  specialize (IH h1). destruct (requests self ps h1) as [xs h2]. simpl in *.
  etrans; [|exact IH]. by eapply get_player_color_frame.
Qed.

(** X6: all renderers take their colours from one palette, also when each
    is given a colour map of its own: once one renderer has answered as
    many new players as the palette held colours, a request on another
    renderer for a player without a colour raises [IndexError]. *)
Theorem X6_one_palette_for_all_renderers
  (d1 d2 : loc)
  (hm1 hm2 : option (gmap HexType string))
  (rm1 rm2 : option (gmap Resource string))
  (h : heap) (ps : list Player) (p : Player) :
  let r1 := BoardRenderer__init__ (Some d1) hm1 rm1 in
  let r2 := BoardRenderer__init__ (Some d2) hm2 rm2 in
  d1 <> d2 ->
  NoDup ps ->
  (forall p', p' ∈ ps -> colormap r1 h !! p' = None) ->
  (length (unused r1 h) <= length ps)%nat ->
  colormap r2 h !! p = None ->
  _get_player_color r2 p (requests r1 ps h).2 =
  (Raise IndexError, (requests r1 ps h).2).
Proof.
  intros r1 r2 Hd Hnd Hnew Hlen Hp.
  destruct (requests_palette_order r1 ps h Hnd Hnew) as [_ Hunused].
  destruct (requests_frame r1 ps h) as [_ Hdicts].
  apply get_player_color_exhausted.
  - unfold colormap in *. simpl in *.
    unfold lookup_total, map_lookup_total. by rewrite Hdicts.
  - change (unused r2 (requests r1 ps h).2)
      with (unused r1 (requests r1 ps h).2).
    rewrite Hunused. by apply drop_ge.
Qed.

(* ===================================================================== *)
(** * Properties of the canvas buffer                                     *)
(* ===================================================================== *)

Lemma result_bind_Ok {A B} (a : A) (f : A -> result B) : (Ok a ≫= f) = f a.
Proof. reflexivity. Qed.

Lemma result_bind_Raise {A B} (e : exn) (f : A -> result B) :
  (Raise e ≫= f) = Raise e.
Proof. reflexivity. Qed.

Lemma py_index_nonneg (n : nat) (k : Z) :
  0 <= k < Z.of_nat n -> py_index n k = Ok (Z.to_nat k).
Proof.
  intros Hk. unfold py_index.
  assert (H1 : (0 <=? k) = true) by (apply Z.leb_le; lia).
  assert (H2 : (k <? Z.of_nat n) = true) by (apply Z.ltb_lt; lia).
  by rewrite H1, H2.
Qed.

Lemma py_index_negative (n : nat) (k : Z) :
  - Z.of_nat n <= k < 0 -> py_index n k = Ok (Z.to_nat (k + Z.of_nat n)).
Proof.
  intros Hk. unfold py_index.
  assert (H1 : (0 <=? k) = false) by (apply Z.leb_gt; lia).
  assert (H2 : (- Z.of_nat n <=? k) = true) by (apply Z.leb_le; lia).
  assert (H3 : (k <? 0) = true) by (apply Z.ltb_lt; lia).
  by rewrite H1, H2, H3.
Qed.

Lemma py_index_outside (n : nat) (k : Z) :
  k < - Z.of_nat n \/ Z.of_nat n <= k -> py_index n k = Raise IndexError.
Proof.
  intros Hk. unfold py_index.
  destruct (Z.leb_spec 0 k), (Z.ltb_spec k (Z.of_nat n)),
    (Z.leb_spec (- Z.of_nat n) k), (Z.ltb_spec k 0); simpl; try done; lia.
Qed.

Lemma py_index_bound (n : nat) (k : Z) (i : nat) :
  py_index n k = Ok i -> (i < n)%nat.
Proof.
  unfold py_index.
  destruct (Z.leb_spec 0 k), (Z.ltb_spec k (Z.of_nat n)),
    (Z.leb_spec (- Z.of_nat n) k), (Z.ltb_spec k 0); simpl;
    intros [= <-]; lia.
Qed.

Lemma setitem2_in_bounds buf (yi xi : nat) old v :
  buf !! yi = Some old -> (xi < length old)%nat ->
  setitem2 buf (Z.of_nat yi) (Z.of_nat xi) v =
  Ok (<[yi := <[xi := v]> old]> buf).
Proof.
  intros Hrow Hx. unfold setitem2, mbind, result_bind, index.
  apply lookup_lt_Some in Hrow as Hy.
  rewrite py_index_nonneg by lia. rewrite Nat2Z.id, Hrow.
  rewrite py_index_nonneg by lia. by rewrite Nat2Z.id.
Qed.

Section copy.
Local Open Scope nat_scope.

Lemma paste_length {A} (x : nat) (src dst : list A) :
  x + length src <= length dst -> length (paste x src dst) = length dst.
Proof.
  intros H. unfold paste.
  rewrite !length_app, length_take, length_drop. lia.
Qed.

Lemma stamp_nil {A} (x y : nat) (buf : list (list A)) :
  stamp x y [] buf = buf.
Proof. unfold stamp. simpl. rewrite Nat.add_0_r. apply take_drop. Qed.

Lemma stamp_cons {A} (x y : nat) (row old : list A) rest buf :
  buf !! y = Some old ->
  stamp x y (row :: rest) buf =
  stamp x (S y) rest (<[y := paste x row old]> buf).
Proof.
  intros Hy. apply lookup_lt_Some in Hy as Hlt. unfold stamp.
  rewrite (drop_S _ _ _ Hy). simpl.
  rewrite (take_S_r (<[y:=paste x row old]> buf) y (paste x row old))
    by (by apply list_lookup_insert_eq).
  rewrite take_insert_ge by lia.
  rewrite !drop_insert_lt by lia.
  rewrite <- app_assoc. simpl. do 4 f_equal. lia.
Qed.

(** The inner loop writes [row] over one row of the buffer. *)
Lemma copy_row_in_bounds (row : list pystr) (x y : Z) (i xo yi : nat) :
  x = Z.of_nat xo -> (y + Z.of_nat i)%Z = Z.of_nat yi ->
  forall n k cur buf,
    buf !! yi = Some cur ->
    k + n <= length row ->
    xo + k + n <= length cur ->
    foldM (fun buf j =>
             v ← index row j;
             setitem2 buf (y + Z.of_nat i) (x + Z.of_nat j) v)
          buf (seq k n)
    = Ok (<[yi := (take (xo + k) cur ++ take n (drop k row)
                   ++ drop (xo + k + n) cur)%list]> buf).
Proof.
  intros -> ->. induction n as [|n IH]; intros k cur buf Hcur Hk Hx; simpl.
  - rewrite Nat.add_0_r, take_drop. by rewrite list_insert_id.
  - destruct (lookup_lt_is_Some_2 row k ltac:(lia)) as [v Hv].
    assert (Hidx : index row k = Ok v) by (unfold index; by rewrite Hv).
    rewrite Hidx. rewrite result_bind_Ok.
    replace (Z.of_nat xo + Z.of_nat k)%Z with (Z.of_nat (xo + k)) by lia.
    rewrite (setitem2_in_bounds buf yi (xo + k) cur v Hcur) by lia.
    rewrite result_bind_Ok. apply lookup_lt_Some in Hcur as Hyi.
    rewrite (IH (S k) (<[xo + k := v]> cur)); cycle 1.
    + by rewrite list_lookup_insert_eq.
    + lia.
    + rewrite length_insert. lia.
    + rewrite list_insert_insert_eq. f_equal.
      rewrite (drop_S row v k Hv). simpl.
      replace (xo + S k) with (S (xo + k)) by lia.
      rewrite (take_S_r _ _ v) by (apply list_lookup_insert_eq; lia).
      rewrite take_insert_ge by lia.
      rewrite drop_insert_lt by lia.
      rewrite <- app_assoc. simpl.
      by replace (xo + k + S n) with (S (xo + k + n)) by lia.
Qed.

(** The outer loop stamps the block. *)
Lemma copy_rows_in_bounds (to_copy : list (list pystr)) (x y : Z) (xo yo : nat) :
  x = Z.of_nat xo -> y = Z.of_nat yo ->
  forall n k cur,
    k + n <= length to_copy ->
    yo + k + n <= length cur ->
    (forall row, row ∈ to_copy ->
                 Forall (fun old => xo + length row <= length old) cur) ->
    foldM (fun buf i =>
             row ← index to_copy i;
             foldM (fun buf j =>
                      v ← index row j;
                      setitem2 buf (y + Z.of_nat i) (x + Z.of_nat j) v)
                   buf (seq 0 (length row)))
          cur (seq k n)
    = Ok (stamp xo (yo + k) (take n (drop k to_copy)) cur).
Proof.
  intros Hxo Hyo.
  induction n as [|n IH]; intros k cur Hk Hy Hw; cbn [seq foldM].
  - by rewrite take_0, stamp_nil.
  - destruct (lookup_lt_is_Some_2 to_copy k ltac:(lia)) as [row Hrow].
    destruct (lookup_lt_is_Some_2 cur (yo + k) ltac:(lia)) as [old Hold].
    assert (Hidx : index to_copy k = Ok row)
      by (unfold index; by rewrite Hrow).
    rewrite Hidx. rewrite result_bind_Ok.
    assert (Hfit : xo + length row <= length old).
    { pose proof (Hw row (list_elem_of_lookup_2 _ _ _ Hrow)) as HF.
      rewrite Forall_lookup in HF. exact (HF _ _ Hold). }
    rewrite (copy_row_in_bounds row x y k xo (yo + k) Hxo ltac:(lia)
               (length row) 0 old cur Hold) by lia.
    rewrite result_bind_Ok, Nat.add_0_r, drop_0, firstn_all.
    change (take xo old ++ row ++ drop (xo + length row) old)%list
      with (paste xo row old).
    rewrite (IH (S k)); cycle 1.
    + lia.
    + rewrite length_insert. lia.
    + intros row' Hrow'. pose proof (Hw row' Hrow') as HF.
      apply Forall_insert; [done|].
      rewrite paste_length by done.
      rewrite Forall_lookup in HF. exact (HF _ _ Hold).
    + rewrite (drop_S to_copy row k Hrow). simpl.
      rewrite (stamp_cons xo (yo + k) row old _ cur Hold).
      by replace (yo + S k) with (S (yo + k)) by lia.
Qed.

End copy.

(** X7: a block that fits into the buffer at offsets that are not
    negative is written in place: the rows of the buffer from [y] on are
    overwritten, from column [x] on, with the rows of the block, and the
    rest of the buffer stays as it is. *)
Theorem X7_copy_into_array_in_bounds
  (buf to_copy : list (list pystr)) (x y : Z) :
  0 <= x -> 0 <= y ->
  (Z.to_nat y + length to_copy <= length buf)%nat ->
  (forall row old, row ∈ to_copy -> old ∈ buf ->
                   (Z.to_nat x + length row <= length old)%nat) ->
  _copy_into_array buf to_copy x y =
  Ok (stamp (Z.to_nat x) (Z.to_nat y) to_copy buf).
Proof.
  intros Hx Hy Hrows Hcols. unfold _copy_into_array.
  rewrite (copy_rows_in_bounds to_copy x y (Z.to_nat x) (Z.to_nat y)
             ltac:(lia) ltac:(lia) (length to_copy) 0%nat buf); try lia.
  - by rewrite Nat.add_0_r, drop_0, firstn_all.
  - intros row Hrow. apply Forall_forall. intros old Hold. by apply Hcols.
Qed.

(** ** Loops that can raise *)

Section foldM_result.
Context {A B : Type}.
Implicit Types (f g : B -> A -> result B) (l : list A) (P : B -> Prop).

Lemma foldM_result_inv P f l :
  (forall b a b', P b -> a ∈ l -> f b a = Ok b' -> P b') ->
  forall b b', P b -> foldM f b l = Ok b' -> P b'.
Proof.
  induction l as [|a l IH]; intros Hf b b' Hb; cbn [foldM].
  - by intros [= <-].
  - destruct (f b a) as [b1|e] eqn:Hstep; [|done].
    rewrite result_bind_Ok. apply IH.
    + intros ? ? ? ? ?. apply Hf; [done|by right].
    + eapply Hf; [done|by left|done].
Qed.

Lemma foldM_result_steps P f l :
  (forall b a b', P b -> a ∈ l -> f b a = Ok b' -> P b') ->
  forall b b', P b -> foldM f b l = Ok b' ->
  forall a, a ∈ l -> exists b1 b2, P b1 /\ f b1 a = Ok b2.
Proof.
  induction l as [|a l IH]; intros Hf b b' Hb; cbn [foldM].
  - intros _ a Ha. by apply elem_of_nil in Ha.
  - destruct (f b a) as [b1|e] eqn:Hstep; [|done].
    rewrite result_bind_Ok. intros Hrest a' Ha'.
    apply elem_of_cons in Ha' as [->|Ha']; [by eauto|].
    eapply (IH ltac:(intros ? ? ? ? ?; apply Hf; [done|by right]) b1 b');
      [|done..].
    eapply Hf; [done|by left|done].
Qed.

Lemma foldM_result_ext P f g l :
  (forall b a b', P b -> a ∈ l -> f b a = Ok b' -> P b') ->
  (forall b a, P b -> a ∈ l -> f b a = g b a) ->
  forall b, P b -> foldM f b l = foldM g b l.
Proof.
  induction l as [|a l IH]; intros Hf Hfg b Hb; cbn [foldM]; [done|].
  rewrite <- (Hfg b a Hb) by (by left).
  destruct (f b a) as [b1|e] eqn:Hstep; [|done].
  rewrite !result_bind_Ok. apply IH.
  - intros ? ? ? ? ?. apply Hf; [done|by right].
  - intros ? ? ? ?. apply Hfg; [done|by right].
  - eapply Hf; [done|by left|done].
Qed.

Lemma foldM_result_only (e0 : exn) f l :
  (forall b a e, f b a = Raise e -> e = e0) ->
  forall b e, foldM f b l = Raise e -> e = e0.
Proof.
  intros Hf. induction l as [|a l IH]; intros b e; cbn [foldM]; [done|].
  destruct (f b a) as [b1|e1] eqn:Hstep.
  - rewrite result_bind_Ok. apply IH.
  - rewrite result_bind_Raise. intros [= <-]. by eapply Hf.
Qed.

End foldM_result.

(** ** One cell *)

Lemma index_only_IndexError {A} (l : list A) (i : nat) (e : exn) :
  index l i = Raise e -> e = IndexError.
Proof. unfold index. destruct (l !! i); [done|by intros [= <-]]. Qed.

Lemma py_index_only_IndexError (n : nat) (k : Z) (e : exn) :
  py_index n k = Raise e -> e = IndexError.
Proof.
  unfold py_index. repeat case_match; try done. by intros [= <-].
Qed.

Lemma setitem2_only_IndexError buf y x v e :
  setitem2 buf y x v = Raise e -> e = IndexError.
Proof.
  unfold setitem2.
  destruct (py_index (length buf) y) as [iy|e1] eqn:Hy.
  2:{ rewrite result_bind_Raise. intros [= <-].
      by eapply py_index_only_IndexError. }
  rewrite result_bind_Ok.
  destruct (index buf iy) as [row|e1] eqn:Hrow.
  2:{ rewrite result_bind_Raise. intros [= <-].
      by eapply index_only_IndexError. }
  rewrite result_bind_Ok.
  destruct (py_index (length row) x) as [ix|e1] eqn:Hx.
  2:{ rewrite result_bind_Raise. intros [= <-].
      by eapply py_index_only_IndexError. }
  by rewrite result_bind_Ok.
Qed.

Lemma setitem2_row_outside buf y x v :
  y < - Z.of_nat (length buf) \/ Z.of_nat (length buf) <= y ->
  setitem2 buf y x v = Raise IndexError.
Proof. intros Hy. unfold setitem2. by rewrite py_index_outside. Qed.

Lemma setitem2_Ok_inv buf y x v buf' :
  setitem2 buf y x v = Ok buf' ->
  exists iy ix row,
    py_index (length buf) y = Ok iy /\ buf !! iy = Some row /\
    py_index (length row) x = Ok ix /\
    buf' = <[iy := <[ix := v]> row]> buf.
Proof.
  unfold setitem2.
  destruct (py_index (length buf) y) as [iy|e1] eqn:Hy; [|done].
  rewrite result_bind_Ok. unfold index.
  destruct (buf !! iy) as [row|] eqn:Hrow; [|done].
  rewrite result_bind_Ok.
  destruct (py_index (length row) x) as [ix|e1] eqn:Hx; [|done].
  rewrite result_bind_Ok. intros [= <-]. by eauto 10.
Qed.

Lemma setitem2_same_shape buf y x v buf' :
  setitem2 buf y x v = Ok buf' -> same_shape buf buf'.
Proof.
  intros (iy & ix & row & _ & Hrow & _ & ->)%setitem2_Ok_inv.
  unfold same_shape. rewrite list_fmap_insert, length_insert.
  apply list_insert_id. by rewrite list_lookup_fmap, Hrow.
Qed.

Lemma same_shape_trans {A} (b1 b2 b3 : list (list A)) :
  same_shape b1 b2 -> same_shape b2 b3 -> same_shape b1 b3.
Proof. unfold same_shape. congruence. Qed.

Lemma same_shape_length {A} (b1 b2 : list (list A)) :
  same_shape b1 b2 -> length b2 = length b1.
Proof.
  unfold same_shape. intros H.
  by rewrite <- (length_fmap length b2), H, length_fmap.
Qed.

Lemma same_shape_rows {A} (b1 b2 : list (list A)) (W : nat) :
  same_shape b1 b2 ->
  Forall (fun row => length row = W) b1 ->
  Forall (fun row => length row = W) b2.
Proof.
  unfold same_shape. intros H H1.
  assert (H2 : Forall (fun n => n = W) (length <$> b1)) by (by apply Forall_fmap).
  rewrite <- H in H2. by apply Forall_fmap in H2.
Qed.

Lemma copy_row_same_shape (row : list pystr) (x yy : Z) l buf buf' :
  foldM (fun buf j => v ← index row j; setitem2 buf yy (x + Z.of_nat j) v)
        buf l = Ok buf' ->
  same_shape buf buf'.
Proof.
  apply (foldM_result_inv (same_shape buf)); [|done].
  intros b j b' Hb _. destruct (index row j) as [v|]; [|done].
  rewrite result_bind_Ok. intros Hset.
  eapply same_shape_trans; [done|by eapply setitem2_same_shape].
Qed.

Lemma copy_into_array_same_shape
  (buf to_copy buf' : list (list pystr)) (x y : Z) :
  _copy_into_array buf to_copy x y = Ok buf' -> same_shape buf buf'.
Proof.
  unfold _copy_into_array.
  apply (foldM_result_inv (same_shape buf)); [|done].
  intros b i b' Hb _. destruct (index to_copy i) as [row|]; [|done].
  rewrite result_bind_Ok. intros Hrow.
  eapply same_shape_trans; [done|by eapply copy_row_same_shape].
Qed.

(** X8: a copy that returns leaves the buffer its shape: as many rows,
    each as long as before, wherever the block was written. *)
Theorem X8_copy_into_array_same_shape
  (buf to_copy buf' : list (list pystr)) (x y : Z) :
  _copy_into_array buf to_copy x y = Ok buf' ->
  length buf' = length buf /\ length <$> buf' = length <$> buf.
Proof.
  intros Hshape%copy_into_array_same_shape.
  split; [by apply same_shape_length|done].
Qed.

Lemma copy_into_array_only_IndexError
  (buf to_copy : list (list pystr)) (x y : Z) (e : exn) :
  _copy_into_array buf to_copy x y = Raise e -> e = IndexError.
Proof.
  unfold _copy_into_array. apply foldM_result_only.
  intros b i e1. destruct (index to_copy i) as [row|e2] eqn:Hrow.
  - rewrite result_bind_Ok. apply foldM_result_only.
    intros b1 j e2. destruct (index row j) as [v|e3] eqn:Hv.
    + rewrite result_bind_Ok. apply setitem2_only_IndexError.
    + rewrite result_bind_Raise. intros [= <-].
      by eapply index_only_IndexError.
  - rewrite result_bind_Raise. intros [= <-].
    by eapply index_only_IndexError.
Qed.

(** X9: a copy raises nothing but [IndexError]; and with offsets that are
    not negative, a block of non-empty rows that reaches below the last
    row or beyond the last column of a rectangular buffer makes the copy
    raise it. *)
Theorem X9_copy_into_array_overflow
  (buf to_copy : list (list pystr)) (x y : Z) (W : nat) :
  (forall e, _copy_into_array buf to_copy x y = Raise e -> e = IndexError) /\
  (0 <= x -> 0 <= y ->
   Forall (fun row => length row = W) buf ->
   Forall (fun row => row <> []) to_copy ->
   (to_copy <> [] /\ (length buf < Z.to_nat y + length to_copy)%nat) \/
   (exists row, row ∈ to_copy /\ (W < Z.to_nat x + length row)%nat) ->
   _copy_into_array buf to_copy x y = Raise IndexError).
Proof.
  split; [intros e; apply copy_into_array_only_IndexError|].
  intros Hx Hy Hrect Hne Hover.
  destruct (_copy_into_array buf to_copy x y) as [buf'|e] eqn:Hrun.
  2:{ f_equal. by eapply copy_into_array_only_IndexError. }
  exfalso. unfold _copy_into_array in Hrun.
  (* every step of the outer loop returned, on a buffer of the same shape *)
  assert (Hsteps : forall i, (i < length to_copy)%nat ->
            exists b1 b2, same_shape buf b1 /\
              (index to_copy i ≫= fun row =>
                 foldM (fun buf j =>
                          v ← index row j;
                          setitem2 buf (y + Z.of_nat i) (x + Z.of_nat j) v)
                       b1 (seq 0 (length row))) = Ok b2).
  { intros i Hi.
    refine (foldM_result_steps (same_shape buf) _ _ _ buf buf' _ Hrun i _);
      [|done|apply elem_of_seq; lia].
    intros b k b' Hb _. destruct (index to_copy k) as [row|]; [|done].
    rewrite result_bind_Ok. intros Hrow.
    eapply same_shape_trans; [done|by eapply copy_row_same_shape]. }
  destruct Hover as [[Hblk Hrows]|(row & Hin & Hcols)].
  - (* the first row below the buffer *)
    remember (length buf - Z.to_nat y)%nat as i eqn:Hi.
    assert (Hlt : (i < length to_copy)%nat).
    { destruct to_copy; [done|]. simpl in *. lia. }
    destruct (Hsteps i Hlt) as (b1 & b2 & Hb1 & Hstep).
    destruct (lookup_lt_is_Some_2 to_copy i ltac:(lia)) as [r Hr].
    assert (Hidx : index to_copy i = Ok r) by (unfold index; by rewrite Hr).
    rewrite Hidx, result_bind_Ok in Hstep.
    destruct r as [|v r].
    { rewrite Forall_lookup in Hne. by apply (Hne _ _ Hr). }
    cbn [length seq foldM] in Hstep.
    assert (Hv : index (v :: r) 0 = Ok v) by done.
    rewrite Hv, result_bind_Ok in Hstep.
    rewrite setitem2_row_outside in Hstep; [done|].
    right. rewrite (same_shape_length _ _ Hb1). lia.
  - (* the first cell to the right of the buffer *)
    apply list_elem_of_lookup in Hin as [i Hr].
    destruct (Hsteps i (lookup_lt_Some _ _ _ Hr)) as (b1 & b2 & Hb1 & Hstep).
    assert (Hidx : index to_copy i = Ok row) by (unfold index; by rewrite Hr).
    rewrite Hidx, result_bind_Ok in Hstep.
    remember (W - Z.to_nat x)%nat as j eqn:Hj.
    assert (Hpos : (0 < length row)%nat).
    { rewrite Forall_lookup in Hne. specialize (Hne _ _ Hr).
      destruct row; [done|simpl; lia]. }
    assert (exists c1 c2, same_shape buf c1 /\
              (index row j ≫= fun v =>
                 setitem2 c1 (y + Z.of_nat i) (x + Z.of_nat j) v) = Ok c2)
      as (c1 & c2 & Hc1 & Hcell).
    { refine (foldM_result_steps (same_shape buf) _ _ _ b1 b2 Hb1 Hstep j _);
        [|apply elem_of_seq; lia].
      intros b k b' Hb _. destruct (index row k) as [v|]; [|done].
      rewrite result_bind_Ok. intros Hset.
      eapply same_shape_trans; [done|by eapply setitem2_same_shape]. }
    destruct (index row j) as [v|]; [|done].
    rewrite result_bind_Ok in Hcell.
    apply setitem2_Ok_inv in Hcell
      as (iy & ix & old & _ & Hold & Hix & _).
    assert (Hlen : length old = W).
    { pose proof (same_shape_rows _ _ W Hc1 Hrect) as HF.
      rewrite Forall_lookup in HF. by eapply HF. }
    rewrite py_index_outside in Hix; [done|]. right. lia.
Qed.

(** X10: a negative offset is not rejected but counted from the far edge:
    a block placed wholly above the first row lands as many rows above the
    last one, and a block placed wholly left of the first column of a
    rectangular buffer lands as many columns left of the last one. *)
Theorem X10_copy_into_array_wraps
  (buf to_copy : list (list pystr)) (x y : Z) (W : nat) :
  (- Z.of_nat (length buf) <= y ->
   y + Z.of_nat (length to_copy) <= 0 ->
   _copy_into_array buf to_copy x y =
   _copy_into_array buf to_copy x (y + Z.of_nat (length buf))) /\
  (Forall (fun row => length row = W) buf ->
   - Z.of_nat W <= x ->
   (forall row, row ∈ to_copy -> x + Z.of_nat (length row) <= 0) ->
   _copy_into_array buf to_copy x y =
   _copy_into_array buf to_copy (x + Z.of_nat W) y).
Proof.
  split.
  - intros Hlo Hhi. unfold _copy_into_array.
    apply (foldM_result_ext (same_shape buf)); [| |done].
    { intros b i b' Hb _. destruct (index to_copy i) as [row|]; [|done].
      rewrite result_bind_Ok. intros Hrow.
      eapply same_shape_trans; [done|by eapply copy_row_same_shape]. }
    intros b i Hb [_ Hi]%elem_of_seq.
    destruct (index to_copy i) as [row|]; [|done].
    rewrite !result_bind_Ok.
    apply (foldM_result_ext (same_shape buf)); [| |done].
    { intros c j c' Hc _. destruct (index row j) as [v|]; [|done].
      rewrite result_bind_Ok. intros Hset.
      eapply same_shape_trans; [done|by eapply setitem2_same_shape]. }
    intros c j Hc _. destruct (index row j) as [v|]; [|done].
    rewrite !result_bind_Ok. unfold setitem2.
    rewrite (same_shape_length _ _ Hc).
    rewrite py_index_negative by lia.
    rewrite py_index_nonneg by lia.
    do 2 f_equal. lia.
  - intros Hrect Hlo Hhi. unfold _copy_into_array.
    apply (foldM_result_ext (same_shape buf)); [| |done].
    { intros b i b' Hb _. destruct (index to_copy i) as [row|]; [|done].
      rewrite result_bind_Ok. intros Hrow.
      eapply same_shape_trans; [done|by eapply copy_row_same_shape]. }
    intros b i Hb _.
    destruct (index to_copy i) as [row|] eqn:Hrow; [|done].
    rewrite !result_bind_Ok.
    assert (Hin : row ∈ to_copy).
    { unfold index in Hrow. destruct (to_copy !! i) eqn:E; [|done].
      injection Hrow as ->. by eapply list_elem_of_lookup_2. }
    apply (foldM_result_ext (same_shape buf)); [| |done].
    { intros c j c' Hc _. destruct (index row j) as [v|]; [|done].
      rewrite result_bind_Ok. intros Hset.
      eapply same_shape_trans; [done|by eapply setitem2_same_shape]. }
    intros c j Hc [_ Hj]%elem_of_seq. destruct (index row j) as [v|]; [|done].
    rewrite !result_bind_Ok. unfold setitem2.
    destruct (py_index (length c) (y + Z.of_nat i)) as [iy|]; [|done].
    rewrite !result_bind_Ok. unfold index.
    destruct (c !! iy) as [old|] eqn:Hold; [|done].
    rewrite !result_bind_Ok.
    assert (Hlen : length old = W).
    { pose proof (same_shape_rows _ _ W Hc Hrect) as HF.
      rewrite Forall_lookup in HF. by eapply HF. }
    rewrite Hlen. specialize (Hhi row Hin).
    rewrite py_index_negative by lia.
    rewrite py_index_nonneg by lia.
    do 2 f_equal. f_equal. lia.
Qed.

(* ===================================================================== *)
(** * Properties of the hex block                                         *)
(* ===================================================================== *)

Lemma M_bind_Ok_inv {A B} (m : M A) (f : A -> M B) h b h' :
  (m ≫= f) h = (Ok b, h') ->
  exists a h1, m h = (Ok a, h1) /\ f a h1 = (Ok b, h').
Proof.
  unfold mbind, M_bind. destruct (m h) as [[a|e] h1]; [|done]. eauto.
Qed.

Lemma lift_Ok_inv {A} (x : result A) h a h' :
  lift x h = (Ok a, h') -> x = Ok a /\ h' = h.
Proof. by intros [= -> <-]. Qed.

Lemma result_bind_Ok_inv {A B} (m : result A) (f : A -> result B) b :
  (m ≫= f) = Ok b -> exists a, m = Ok a /\ f a = Ok b.
Proof. destruct m as [a|e]; [|done]. eauto. Qed.

Lemma get_path_length self chars path board h l h' :
  _get_path self chars path board h = (Ok l, h') ->
  length l = length chars.
Proof.
  unfold _get_path.
  intros (back & h1 & _ & (fore & h2 & _ & [= <- _])%M_bind_Ok_inv)%M_bind_Ok_inv.
  by rewrite length_map.
Qed.

Lemma get_intersection_length self char i h l h' :
  _get_intersection self char i h = (Ok l, h') -> length l = 1%nat.
Proof.
  unfold _get_intersection.
  intros (back & h1 & _ & ([fore ch] & h2 & _ & [= <- _])%M_bind_Ok_inv)%M_bind_Ok_inv.
  done.
Qed.

Lemma get_hex_center_length self hx l :
  _get_hex_center self hx = Ok l -> length l = 5%nat.
Proof.
  unfold _get_hex_center.
  intros (c & _ & Hl)%result_bind_Ok_inv.
  destruct (Hex.token_number hx); by injection Hl as <-.
Qed.

(** X11: the block of a hex, whenever [_get_hex] returns one, is three
    rows of seven cells. *)
Theorem X11_hex_block_shape
  (self : BoardRenderer) (board : Board.t) (coords : Coords)
  (h h' : heap) (block : list (list pystr)) :
  _get_hex self board coords h = (Ok block, h') ->
  length <$> block = [7; 7; 7]%nat.
Proof.
  unfold _get_hex. cbv zeta. intros Hrun.
  repeat match type of Hrun with
  | (_ ≫= _) _ = (Ok _, _) =>
    let H := fresh "H" in
    apply M_bind_Ok_inv in Hrun as (? & ? & H & Hrun);
    try (apply M_bind_Ok_inv in H as (? & ? & _ & H))
  end.
  repeat match goal with
  | H : _get_intersection _ _ _ _ = (Ok _, _) |- _ =>
    apply get_intersection_length in H
  | H : _get_path _ _ _ _ _ = (Ok _, _) |- _ =>
    apply get_path_length in H
  | H : lift (_ ≫= _) _ = (Ok _, _) |- _ =>
    apply lift_Ok_inv in H as [(? & _ & H)%result_bind_Ok_inv _];
    apply get_hex_center_length in H
  end.
  injection Hrun as <- _. simpl. rewrite !length_app.
  repeat match goal with H : length _ = _ |- _ => rewrite H; clear H end.
  done.
Qed.

(** X12: when one of the six corners of the hex is not in
    [board.intersections], or one of its six edges is not in [board.paths],
    [_get_hex] raises [KeyError] before any colour is requested: the store
    is as it was. *)
Theorem X12_hex_missing_topology
  (self : BoardRenderer) (board : Board.t) (coords : Coords) (h : heap) :
  (exists c, c ∈ hex_corners coords /\ Board.intersections board !! c = None) \/
  (exists e, e ∈ hex_edges coords /\ Board.paths board !! e = None) ->
  _get_hex self board coords h = (Raise KeyError, h).
Proof.
  intros Hmissing.
  unfold _get_hex. cbv zeta.
  unfold mbind at 1, M_bind at 1, lift at 1.
  cbn [map length seq mapM].
  unfold getitem at 1 2 3 4 5 6.
  repeat match goal with
  | |- context [Board.intersections board !! ?k] =>
    let E := fresh "Hc" in
    destruct (Board.intersections board !! k) eqn:E;
    rewrite ?result_bind_Ok, ?result_bind_Raise
  end; try reflexivity.
  (* all six corners are there: an edge is missing *)
  destruct Hmissing as [(c & Hin & Hnone)|(e & Hin & Hnone)].
  { unfold hex_corners in Hin. cbn [fmap list_fmap] in Hin.
    repeat (apply elem_of_cons in Hin as [->|Hin]; [congruence|]).
    by apply elem_of_nil in Hin. }
  unfold mret at 1, result_ret at 1.
  unfold mbind at 1, M_bind at 1, lift at 1.
  cbn [index lookup list_lookup Nat.modulo Nat.divmod fst snd Nat.add Nat.sub].
  rewrite ?result_bind_Ok.
  unfold getitem.
  repeat match goal with
  | |- context [Board.paths board !! ?k] =>
    let E := fresh "He" in
    destruct (Board.paths board !! k) eqn:E;
    rewrite ?result_bind_Ok, ?result_bind_Raise
  end; try reflexivity.
  unfold hex_edges, hex_corners in Hin.
  cbn [fmap list_fmap drop take app zip_with] in Hin.
  repeat (apply elem_of_cons in Hin as [->|Hin]; [congruence|]).
  by apply elem_of_nil in Hin.
Qed.

(* ===================================================================== *)
(** * Properties of the canvas compositor                                 *)
(* ===================================================================== *)

Lemma foldM_M_inv {A B} (P : B -> Prop) (f : B -> A -> M B) (l : list A) :
  (forall b a h b' h', P b -> f b a h = (Ok b', h') -> P b') ->
  forall b h b' h', P b -> foldM f b l h = (Ok b', h') -> P b'.
Proof.
  intros Hf. induction l as [|a l IH]; intros b h b' h' Hb; cbn [foldM].
  - by intros [= <- _].
  - intros (b1 & h1 & Hstep & Hrest)%M_bind_Ok_inv.
    eapply IH; [|exact Hrest]. by eapply Hf.
Qed.

(** What a returning run went through: the two loops left a canvas of 20
    rows of 55 cells, and the marker of the robber was copied onto it. *)
Lemma get_board_as_string_Ok_inv
  (CONNECTED_CORNER_OFFSETS : list Coords) (self : BoardRenderer)
  (board : Board.t) (h h' : heap) (s : pystr) :
  get_board_as_string CONNECTED_CORNER_OFFSETS self board h = (Ok s, h') ->
  exists (buf2 buf3 : list (list pystr)) (x y : Z),
    length <$> buf2 = replicate 20 55%nat /\
    _get_hex_center_coords (Board.robber board) = Ok (x, y) /\
    _copy_into_array buf2 [[robber_marker]]
      (center.1 + x + 4) (center.2 + y + 1) = Ok buf3 /\
    s = join (Lit newline) (join (Lit "") <$> buf3).
Proof.
  unfold get_board_as_string. cbv zeta.
  set (buf0 := replicate _ (replicate _ _)).
  assert (Hlen0 : length <$> buf0 = replicate 20 55%nat) by reflexivity.
  set (P := fun b : list (list pystr) => length <$> b = replicate 20 55%nat).
  intros (buf1 & h1 & Hhexes & Hrun)%M_bind_Ok_inv.
  apply M_bind_Ok_inv in Hrun as (buf2 & h2 & Hharbors & Hrun).
  apply M_bind_Ok_inv in Hrun as ([x y] & h3 & [Hproj _]%lift_Ok_inv & Hrun).
  apply M_bind_Ok_inv in Hrun as (buf3 & h4 & [Hrobber _]%lift_Ok_inv & Hrun).
  injection Hrun as <- _.
  assert (H1 : P buf1).
  { revert Hhexes. apply (foldM_M_inv P); [|done].
    intros b c hh b' hh' Hb.
    intros ([x' y'] & ? & _ & (blk & ? & _ & [Hcopy _]%lift_Ok_inv)
              %M_bind_Ok_inv)%M_bind_Ok_inv.
    apply copy_into_array_same_shape in Hcopy. unfold P, same_shape in *.
    congruence. }
  assert (H2 : P buf2).
  { revert Hharbors. apply (foldM_M_inv P); [|done].
    intros b c hh b' hh' Hb.
    intros ([x' y'] & ? & _ & (blk & ? & _ & [Hcopy _]%lift_Ok_inv)
              %M_bind_Ok_inv)%M_bind_Ok_inv.
    apply copy_into_array_same_shape in Hcopy. unfold P, same_shape in *.
    congruence. }
  by exists buf2, buf3, x, y.
Qed.

(** X13: the string that [get_board_as_string] returns is always that of a
    canvas of 20 rows of 55 cells: the cells of a row joined, and the rows
    joined by newlines. *)
Theorem X13_canvas_shape
  (CONNECTED_CORNER_OFFSETS : list Coords) (self : BoardRenderer)
  (board : Board.t) (h h' : heap) (s : pystr) :
  get_board_as_string CONNECTED_CORNER_OFFSETS self board h = (Ok s, h') ->
  exists buf : list (list pystr),
    length buf = 20%nat /\
    Forall (fun row => length row = 55%nat) buf /\
    s = join (Lit newline) (join (Lit "") <$> buf).
Proof.
  intros (buf2 & buf3 & x & y & Hshape & _ & Hcopy & ->)
    %get_board_as_string_Ok_inv.
  apply copy_into_array_same_shape in Hcopy. unfold same_shape in Hcopy.
  rewrite Hshape in Hcopy.
  exists buf3. split_and!; [| |done].
  - by rewrite <- (length_fmap length buf3), Hcopy.
  - assert (HF : Forall (fun n => n = 55%nat) (length <$> buf3))
      by (rewrite Hcopy; by apply Forall_replicate).
    by apply Forall_fmap in HF.
Qed.

(** ** Harbors *)

Lemma filterM_Ok_elem {A} (p : A -> result bool) (l l' : list A) (a : A) :
  filterM p l = Ok l' -> a ∈ l' -> a ∈ l /\ p a = Ok true.
Proof.
  revert l'. induction l as [|a0 l IH]; intros l'; cbn [filterM].
  - intros [= <-] Ha. by apply elem_of_nil in Ha.
  - intros (b & Hb & (t & Ht & [= <-])%result_bind_Ok_inv)%result_bind_Ok_inv.
    destruct b.
    + intros [->|Ha]%elem_of_cons.
      * split; [by left|done].
      * destruct (IH t Ht Ha). split; [by right|done].
    + intros Ha. destruct (IH t Ht Ha). split; [by right|done].
Qed.

Lemma filterM_only {A} (e0 : exn) (p : A -> result bool) (l : list A) e :
  (forall a e, p a = Raise e -> e = e0) ->
  filterM p l = Raise e -> e = e0.
Proof.
  intros Hp. induction l as [|a l IH]; cbn [filterM]; [done|].
  destruct (p a) as [b|e1] eqn:Hpa.
  - rewrite result_bind_Ok. destruct (filterM p l) as [t|e1]; [done|].
    rewrite result_bind_Raise. intros [= <-]. by apply IH.
  - rewrite result_bind_Raise. intros [= <-]. by eapply Hp.
Qed.

(** X14: when [_get_harbor_coords] returns an offset, it is that of a
    slot next to both of the first two corners of the harbor, that is not
    a hex of the board, moved by (+2, +1); and a harbor with fewer than
    two corners makes it raise [IndexError]. *)
Theorem X14_harbor_coords
  (CONNECTED_CORNER_OFFSETS : list Coords)
  (harbor : Harbor.t) (board : Board.t) :
  (forall x y,
     _get_harbor_coords CONNECTED_CORNER_OFFSETS harbor board = Ok (x, y) ->
     exists a b o,
       Harbor.path_coords harbor !! 0%nat = Some a /\
       Harbor.path_coords harbor !! 1%nat = Some b /\
       o ∈ ((fun c => Coords_add c a) <$> CONNECTED_CORNER_OFFSETS) /\
       o ∈ ((fun c => Coords_add c b) <$> CONNECTED_CORNER_OFFSETS) /\
       (o ∉ keys (Board.hexes board)) /\
       _get_hex_center_coords o = Ok (x - 2, y - 1)) /\
  ((length (Harbor.path_coords harbor) < 2)%nat ->
   _get_harbor_coords CONNECTED_CORNER_OFFSETS harbor board
   = Raise IndexError).
Proof.
  unfold _get_harbor_coords. cbv zeta.
  set (cc := map _ (Harbor.path_coords harbor)).
  split.
  - intros x y.
    intros (first & Hfirst & (overlap & Hoverlap & (o & Ho &
      ([x0 y0] & Hproj & [= <- <-])%result_bind_Ok_inv)%result_bind_Ok_inv)
      %result_bind_Ok_inv)%result_bind_Ok_inv.
    unfold index in Hfirst, Ho.
    destruct (cc !! 0%nat) as [first'|] eqn:Hcc0; [|done].
    injection Hfirst as ->.
    destruct (overlap !! 0%nat) as [o'|] eqn:Ho0; [|done].
    injection Ho as ->.
    apply list_elem_of_lookup_2 in Ho0.
    destruct (filterM_Ok_elem _ _ _ _ Hoverlap Ho0) as [Hin Hp].
    apply result_bind_Ok_inv in Hp as (second & Hsecond & [= Hp]).
    unfold index in Hsecond.
    destruct (cc !! 1%nat) as [second'|] eqn:Hcc1; [|done].
    injection Hsecond as ->.
    apply andb_true_iff in Hp as [Hboth Hoff].
    apply bool_decide_eq_true in Hboth.
    apply negb_true_iff in Hoff.
    unfold cc in Hcc0, Hcc1.
    rewrite list_lookup_fmap in Hcc0, Hcc1.
    destruct (Harbor.path_coords harbor !! 0%nat) as [a|]; [|done].
    destruct (Harbor.path_coords harbor !! 1%nat) as [b|]; [|done].
    injection Hcc0 as <-. injection Hcc1 as <-.
    exists a, b, o. split_and!; try done.
    + intros Hkey%contains_keys. congruence.
    + rewrite Hproj. simpl. f_equal. f_equal; lia.
  - intros Hshort.
    destruct (Harbor.path_coords harbor) as [|a [|b rest]] eqn:Hpc;
      [| |simpl in Hshort; lia].
    + reflexivity.
    + subst cc. cbn [map index lookup list_lookup]. rewrite result_bind_Ok.
      destruct (filterM _ _) as [overlap|e] eqn:Hf.
      * destruct overlap as [|o overlap]; [reflexivity|].
        exfalso.
        destruct (filterM_Ok_elem _ _ _ o Hf ltac:(left)) as [_ Hp].
        done.
      * rewrite result_bind_Raise. f_equal.
        eapply (filterM_only IndexError); [|exact Hf].
        intros c e'. cbn. by intros [= <-].
Qed.

(* ===================================================================== *)
(** * Further properties of the projection                                *)
(* ===================================================================== *)

Lemma hex_center_on_square (c : Coords) :
  - 98 <= q c <= 98 -> - 98 <= r c <= 98 ->
  _get_hex_center_coords c =
  Ok (3 * r c, - Z.quot (134 * q c + 67 * r c) 100).
Proof.
  intros Hq Hr.
  assert (Hchk : check_square 98 = true) by (vm_compute; reflexivity).
  pose proof (check_square_sound 98 c Hchk Hq Hr) as H.
  unfold offset_is_trunc in H.
  destruct (_get_hex_center_coords c) as [[x y]|]; [|done].
  apply andb_true_iff in H as [Hx Hy].
  apply Z.eqb_eq in Hx, Hy. by subst.
Qed.

Lemma quot_100_lt (a b : Z) : a + 200 <= b -> Z.quot a 100 < Z.quot b 100.
Proof.
  intros Hab.
  pose proof (Z.quot_rem' a 100) as Ha.
  pose proof (Z.quot_rem' b 100) as Hb.
  pose proof (Z.rem_bound_abs a 100 ltac:(lia)) as Hra.
  pose proof (Z.rem_bound_abs b 100 ltac:(lia)) as Hrb.
  lia.
Qed.

(** X15: on the square |q|, |r| <= 98 two coordinates have the same
    projection only if they have the same r and their q differ by at most
    1; so coordinates of one row that are 2 or more apart never share a
    canvas position. Neighbours in q can: (0, 1) and (-1, 1) both project
    to (3, 0). *)
Theorem X15_projection_collisions :
  (forall c c',
     - 98 <= q c <= 98 -> - 98 <= r c <= 98 ->
     - 98 <= q c' <= 98 -> - 98 <= r c' <= 98 ->
     _get_hex_center_coords c = _get_hex_center_coords c' ->
     r c = r c' /\ Z.abs (q c - q c') <= 1) /\
  _get_hex_center_coords (mkCoords 0 1) =
  _get_hex_center_coords (mkCoords (-1) 1).
Proof.
  split; [|reflexivity].
  intros c c' Hq Hr Hq' Hr'.
  rewrite (hex_center_on_square c Hq Hr), (hex_center_on_square c' Hq' Hr').
  intros [= Hx Hy].
  assert (Hrr : r c = r c') by lia. split; [done|].
  rewrite <- Hrr in Hy.
  destruct (Z.le_gt_cases (Z.abs (q c - q c')) 1) as [|Hfar]; [done|].
  exfalso.
  destruct (Z.le_gt_cases (q c) (q c')).
  - pose proof (quot_100_lt (134 * q c + 67 * r c) (134 * q c' + 67 * r c)
                  ltac:(lia)). lia.
  - pose proof (quot_100_lt (134 * q c' + 67 * r c) (134 * q c + 67 * r c)
                  ltac:(lia)). lia.
Qed.

(* ===================================================================== *)
(** * Further properties of the roll-yield bookkeeping                    *)
(* ===================================================================== *)

Lemma add_yields_from (l : list (Resource * Z * pyref)) :
  forall (self : RollYield) (t : Resource -> Z),
    (forall res, total_yield self !! res = Some (t res)) ->
    exists self',
      add_yields self l = Ok self' /\
      (forall res, total_yield self' !! res = Some (t res + amount_for res l)) /\
      all_yields self' =
      all_yields self ∪ (if l is [] then ∅ else {[ RollYieldSource_class ]}).
Proof.
  induction l as [|[[res amount] source] l IH]; intros self t Ht.
  - exists self. split_and!; [done| |set_solver].
    intros res. simpl. by rewrite Z.add_0_r.
  - change (add_yields self ((res, amount, source) :: l))
      with (add_yield self res amount source ≫= fun s => add_yields s l).
    unfold add_yield, getitem. rewrite (Ht res), !result_bind_Ok.
    cbn [total_yield all_yields].
    destruct (IH (mkRollYield (<[res := t res + amount]> (total_yield self))
                              ({[ RollYieldSource_class ]} ∪ all_yields self))
                 (fun res' => if decide (res = res') then t res' + amount
                              else t res'))
      as (self' & Hrun & Htot & Hall).
    { intros res'. cbn [total_yield]. rewrite lookup_insert.
      case_decide; [by subst|apply Ht]. }
    exists self'. split_and!.
    + exact Hrun.
    + intros res'. rewrite Htot. simpl. f_equal.
      repeat case_decide; subst; try done; lia.
    + rewrite Hall. cbn [all_yields]. destruct l; set_solver.
Qed.

(** X16: yields added to a new [RollYield], however many, never raise;
    the total of each resource is the sum of the amounts added for it;
    and [all_yields] holds the class object alone, or nothing when no
    yield was added. *)
Theorem X16_roll_yield_totals (l : list (Resource * Z * pyref)) :
  exists self,
    add_yields RollYield__init__ l = Ok self /\
    (forall res, total_yield self !! res = Some (amount_for res l)) /\
    all_yields self = (if l is [] then ∅ else {[ RollYieldSource_class ]}).
Proof.
  destruct (add_yields_from l RollYield__init__ (fun _ => 0))
    as (self & Hrun & Htot & Hall).
  { intros res. by destruct res. }
  exists self. split_and!; [done|done|].
  rewrite Hall. simpl. destruct l; set_solver.
Qed.

(* ===================================================================== *)
(** * The colour tables given to the constructor                          *)
(* ===================================================================== *)

Lemma get_hex_without_desert
  (self : BoardRenderer) (board : Board.t) (coords : Coords) (h : heap) :
  hex_color_map self !! DESERT = None ->
  _get_hex self board coords h = (Raise KeyError, h).
Proof.
  intros Hdesert.
  unfold _get_hex. cbv zeta.
  unfold mbind at 1, M_bind at 1, lift at 1.
  cbn [map length seq mapM].
  unfold getitem at 1 2 3 4 5 6.
  repeat match goal with
  | |- context [Board.intersections board !! ?k] =>
    let E := fresh "Hc" in
    destruct (Board.intersections board !! k) eqn:E;
    rewrite ?result_bind_Ok, ?result_bind_Raise
  end; try reflexivity.
  unfold mret at 1, result_ret at 1.
  unfold mbind at 1, M_bind at 1, lift at 1.
  cbn [index lookup list_lookup Nat.modulo Nat.divmod fst snd Nat.add Nat.sub].
  rewrite ?result_bind_Ok.
  unfold getitem at 1 2 3 4 5 6.
  repeat match goal with
  | |- context [Board.paths board !! ?k] =>
    let E := fresh "He" in
    destruct (Board.paths board !! k) eqn:E;
    rewrite ?result_bind_Ok, ?result_bind_Raise
  end; try reflexivity.
  unfold mret at 1, result_ret at 1.
  unfold mbind at 1, M_bind at 1.
  unfold mbind at 1, M_bind at 1, lift at 1.
  cbn [index lookup list_lookup].
  unfold _get_intersection at 1.
  unfold mbind at 1, M_bind at 1, lift at 1, getitem at 1.
  by rewrite Hdesert.
Qed.

(** X17: the [hex_color_map] given to the constructor replaces the default
    table, it is not merged with it: a renderer built with a table that
    has no DESERT entry raises [KeyError] on every hex, and on every board
    whose first hex has a projection, without touching the store. *)
Theorem X17_hex_color_map_needs_desert
  (pm : option loc) (hm : gmap HexType string)
  (rm : option (gmap Resource string)) :
  let self := BoardRenderer__init__ pm (Some hm) rm in
  hm !! DESERT = None ->
  (forall board coords h,
     _get_hex self board coords h = (Raise KeyError, h)) /\
  (forall offsets board c hx rest h xy,
     Board.hexes board = (c, hx) :: rest ->
     _get_hex_center_coords c = Ok xy ->
     get_board_as_string offsets self board h = (Raise KeyError, h)).
Proof.
  intros self Hdesert. split.
  - intros board coords h. by apply get_hex_without_desert.
  - intros offsets board c hx rest h [x y] Hhexes Hproj.
    unfold get_board_as_string. cbv zeta. rewrite Hhexes.
    cbn [keys map fst foldM].
    unfold mbind at 1, M_bind at 1.
    unfold mbind at 1, M_bind at 1.
    unfold mbind at 1, M_bind at 1, lift at 1.
    rewrite Hproj.
    unfold mbind at 1, M_bind at 1.
    by rewrite (get_hex_without_desert self board c h Hdesert).
Qed.

(* ===================================================================== *)
(** * The robber marker and the exceptions of a hex                       *)
(* ===================================================================== *)

Lemma copy_into_array_cell (buf : list (list pystr)) (v : pystr) (x y : Z) :
  _copy_into_array buf [[v]] x y = setitem2 buf (y + 0) (x + 0) v.
Proof.
  unfold _copy_into_array. cbn [length seq foldM].
  change (index [[v]] 0) with (Ok [v] : result (list pystr)).
  rewrite result_bind_Ok. cbn [length seq foldM].
  change (index [v] 0) with (Ok v : result pystr).
  rewrite result_bind_Ok.
  change (Z.of_nat 0) with 0.
  by destruct (setitem2 buf (y + 0) (x + 0) v).
Qed.

(** X19: the robber marker is written last and nothing is written over
    it: in the canvas of the string that [get_board_as_string] returns,
    the cell that the indices [center + projection of the robber + (4, 1)]
    denote holds the marker, white on black. *)
Theorem X19_robber_marker_on_top
  (CONNECTED_CORNER_OFFSETS : list Coords) (self : BoardRenderer)
  (board : Board.t) (h h' : heap) (s : pystr) :
  get_board_as_string CONNECTED_CORNER_OFFSETS self board h = (Ok s, h') ->
  exists (buf : list (list pystr)) (x y : Z) (iy ix : nat) (row : list pystr),
    s = join (Lit newline) (join (Lit "") <$> buf) /\
    _get_hex_center_coords (Board.robber board) = Ok (x, y) /\
    py_index 20 (center.2 + y + 1) = Ok iy /\
    py_index 55 (center.1 + x + 4) = Ok ix /\
    buf !! iy = Some row /\
    row !! ix = Some robber_marker.
Proof.
  intros Hrun.
  destruct (get_board_as_string_Ok_inv CONNECTED_CORNER_OFFSETS self board h h' s
              Hrun)
    as (buf2 & buf3 & x & y & Hshape & Hproj & Hcopy & ->).
  rewrite copy_into_array_cell in Hcopy.
  apply setitem2_Ok_inv in Hcopy as (iy & ix & old & Hiy & Hold & Hix & ->).
  assert (Hlen2 : length buf2 = 20%nat).
  { by rewrite <- (length_fmap length buf2), Hshape. }
  assert (Hlenold : length old = 55%nat).
  { assert (HF : Forall (fun n => n = 55%nat) (length <$> buf2))
      by (rewrite Hshape; by apply Forall_replicate).
    apply Forall_fmap in HF. rewrite Forall_lookup in HF. by eapply HF. }
  rewrite Hlen2, !Z.add_0_r in Hiy. rewrite Hlenold, !Z.add_0_r in Hix.
  exists (<[iy := <[ix := robber_marker]> old]> buf2), x, y, iy, ix,
         (<[ix := robber_marker]> old).
  split_and!; try done.
  - apply list_lookup_insert_eq. by eapply lookup_lt_Some.
  - apply list_lookup_insert_eq. rewrite Hlenold.
    by eapply py_index_bound.
Qed.

Lemma X19_robber_marker_on_top_witness :
  exists s h' (buf : list (list pystr)) (row : list pystr),
    get_board_as_string spec_CONNECTED_CORNER_OFFSETS sample_renderer
      sample_board heap_after_import = (Ok s, h') /\
    s = join (Lit newline) (join (Lit "") <$> buf) /\
    buf !! 10%nat = Some row /\ row !! 28%nat = Some robber_marker.
Proof.
  destruct (get_board_as_string spec_CONNECTED_CORNER_OFFSETS sample_renderer
              sample_board heap_after_import) as [[s|e] h'] eqn:Hrun;
    [|vm_compute in Hrun; discriminate Hrun].
  destruct (X19_robber_marker_on_top _ _ _ _ _ _ Hrun)
    as (buf & x & y & iy & ix & row & Hs & Hproj & Hiy & Hix & Hrow & Hcell).
  vm_compute in Hproj. injection Hproj as <- <-.
  vm_compute in Hiy, Hix. injection Hiy as <-. injection Hix as <-.
  exists s, h', buf, row.
  split; [reflexivity|]. split; [exact Hs|]. split; [exact Hrow|exact Hcell].
Defined.

(** ** The exceptions of a hex *)

Section raises_only.
Variable E : exn -> Prop.

Lemma raises_only_ret {A} (a : A) : raises_only E (mret a).
Proof. by intros h e h'. Qed.

Lemma raises_only_lift {A} (x : result A) :
  (forall e, x = Raise e -> E e) -> raises_only E (lift x).
Proof. intros Hx h e h' [= -> _]. by apply Hx. Qed.

Lemma raises_only_bind {A B} (m : M A) (f : A -> M B) :
  raises_only E m -> (forall a, raises_only E (f a)) ->
  raises_only E (m ≫= f).
Proof.
  intros Hm Hf h e h2. unfold mbind, M_bind.
  destruct (m h) as [[a|e1] h1] eqn:Hrun.
  - by apply Hf.
  - intros [= <- _]. by eapply Hm.
Qed.

End raises_only.

Lemma result_bind_raises {A B} (E : exn -> Prop)
  (m : result A) (f : A -> result B) e :
  (forall e, m = Raise e -> E e) ->
  (forall a e, f a = Raise e -> E e) ->
  (m ≫= f) = Raise e -> E e.
Proof. intros Hm Hf. destruct m as [a|e1]; [apply Hf|intros [= <-]; eauto]. Qed.

Lemma mapM_raises {A B} (E : exn -> Prop) (f : A -> result B) (l : list A) e :
  (forall a e, f a = Raise e -> E e) ->
  mapM f l = Raise e -> E e.
Proof.
  intros Hf. revert e. induction l as [|a l IH]; intros e; cbn [mapM]; [done|].
  apply result_bind_raises; [apply Hf|]. intros b e1.
  apply result_bind_raises; [apply IH|done].
Qed.

Lemma getitem_raises `{Lookup K V D} (d : D) (k : K) e :
  getitem d k = Raise e -> e = KeyError.
Proof. unfold getitem. destruct (d !! k); [done|by intros [= <-]]. Qed.

Lemma get_player_color_raises self p :
  raises_only (fun e => e = IndexError) (_get_player_color self p).
Proof.
  intros h e h' Hrun.
  destruct (colormap self h !! p) as [c|] eqn:Hp.
  { by rewrite (get_player_color_known self p h c Hp) in Hrun. }
  destruct (unused self h) as [|c rest] eqn:Hl.
  - rewrite (get_player_color_exhausted self p h Hp Hl) in Hrun.
    by injection Hrun as <- _.
  - destruct (get_player_color_new self p h c rest Hp Hl) as (h1 & Hrun1 & _).
    by rewrite Hrun1 in Hrun.
Qed.

(** X20: [_get_hex] raises nothing but [KeyError] (a corner, an edge, the
    hex or a colour is not in its table) and [IndexError] (the palette is
    empty). *)
Theorem X20_hex_exceptions
  (self : BoardRenderer) (board : Board.t) (coords : Coords)
  (h h' : heap) (e : exn) :
  _get_hex self board coords h = (Raise e, h') ->
  e = KeyError \/ e = IndexError.
Proof.
  set (E := fun e => e = KeyError \/ e = IndexError).
  assert (Hcolor : forall p, raises_only E (_get_player_color self p)).
  { intros p h0 e0 h0' Hrun. right. by eapply get_player_color_raises. }
  assert (Hkey : forall `{Lookup K V D} (d : D) (k : K) e0,
             getitem d k = Raise e0 -> E e0).
  { intros. left. by eapply getitem_raises. }
  assert (Hidx : forall {A} (l : list A) i e0, index l i = Raise e0 -> E e0).
  { intros. right. by eapply index_only_IndexError. }
  assert (Hpath : forall chars path,
             raises_only E (_get_path self chars path board)).
  { intros chars path. unfold _get_path. cbv zeta.
    apply raises_only_bind; [apply raises_only_lift, Hkey|intros back].
    apply raises_only_bind; [|intros; apply raises_only_ret].
    destruct (Path.building path); [apply Hcolor|].
    destruct (contains _ _); apply raises_only_ret. }
  assert (Hcorner : forall char i,
             raises_only E (_get_intersection self char i)).
  { intros char i. unfold _get_intersection. cbv zeta.
    apply raises_only_bind; [apply raises_only_lift, Hkey|intros back].
    apply raises_only_bind; [|intros []; apply raises_only_ret].
    destruct (Intersection.building i); [|apply raises_only_ret].
    apply raises_only_bind; [apply Hcolor|intros; apply raises_only_ret]. }
  revert h e h'. change (raises_only E (_get_hex self board coords)).
  unfold _get_hex. cbv zeta.
  repeat first
    [ apply Hpath | apply Hcorner | apply raises_only_ret
    | apply raises_only_bind; [|intros]
    | apply raises_only_lift; intros ? ].
  - apply mapM_raises. intros c e0. apply Hkey.
  - apply mapM_raises. intros i e0.
    apply result_bind_raises; [apply Hidx|]. intros c1 e1.
    apply result_bind_raises; [apply Hidx|]. intros c2 e2. apply Hkey.
  - apply Hidx.
  - apply Hidx.
  - apply Hidx.
  - apply Hidx.
  - apply Hidx.
  - apply Hidx.
  - apply result_bind_raises; [|].
    + intros e0. unfold getitem_assoc. destruct (assoc _ _); [done|].
      intros [= <-]. by left.
    + intros hx e0. unfold _get_hex_center.
      apply result_bind_raises; [apply Hkey|]. intros c e1.
      by destruct (Hex.token_number hx).
  - apply Hidx.
  - apply Hidx.
  - apply Hidx.
  - apply Hidx.
  - apply Hidx.
  - apply Hidx.
Qed.

Lemma X20_hex_exceptions_witness :
  _get_hex sample_renderer sample_board_empty (mkCoords 0 0) heap_after_import
  = (Raise KeyError, heap_after_import) /\
  (KeyError = KeyError \/ KeyError = IndexError).
Proof.
  assert (Hrun : _get_hex sample_renderer sample_board_empty (mkCoords 0 0)
                   heap_after_import = (Raise KeyError, heap_after_import))
    by reflexivity.
  split; [done|].
  exact (X20_hex_exceptions _ _ _ _ _ _ Hrun).
Defined.

(* ===================================================================== *)
(** * The further properties on concrete inputs                           *)
(* ===================================================================== *)

Lemma X3_rendering_keeps_colors_witness :
  exists x h',
    get_board_as_string spec_CONNECTED_CORNER_OFFSETS sample_renderer
      sample_board sample_heap_colored = (x, h') /\
    colormap sample_renderer sample_heap_colored !! 1%positive
    = Some "#abcdef" /\
    colormap sample_renderer h' !! 1%positive = Some "#abcdef".
Proof.
  destruct (get_board_as_string spec_CONNECTED_CORNER_OFFSETS sample_renderer
              sample_board sample_heap_colored) as [x h'] eqn:Hrun.
  assert (Hp : colormap sample_renderer sample_heap_colored !! 1%positive
               = Some "#abcdef") by reflexivity.
  exists x, h'. split_and!; [done..|].
  exact (X3_rendering_keeps_colors _ _ _ _ _ _ _ _ Hrun Hp).
Defined.

Lemma X4_rendering_frame_witness :
  exists x h',
    get_board_as_string spec_CONNECTED_CORNER_OFFSETS
      (BoardRenderer__init__ (Some 2%positive) None None)
      sample_board sample_heap_two_maps = (x, h') /\
    dicts h' !! 3%positive = dicts sample_heap_two_maps !! 3%positive.
Proof.
  destruct (get_board_as_string spec_CONNECTED_CORNER_OFFSETS
              (BoardRenderer__init__ (Some 2%positive) None None)
              sample_board sample_heap_two_maps) as [x h'] eqn:Hrun.
  exists x, h'. split; [done|].
  by apply (X4_rendering_frame _ _ _ _ _ _ Hrun).
Defined.

Lemma X5_rendering_stable_across_boards_witness :
  exists sA sB h1 h2,
    get_board_as_string spec_CONNECTED_CORNER_OFFSETS sample_renderer
      sample_board heap_after_import = (Ok sA, h1) /\
    get_board_as_string spec_CONNECTED_CORNER_OFFSETS sample_renderer
      sample_board_no_harbor h1 = (Ok sB, h2) /\
    get_board_as_string spec_CONNECTED_CORNER_OFFSETS sample_renderer
      sample_board h2 = (Ok sA, h2).
Proof.
  destruct (get_board_as_string spec_CONNECTED_CORNER_OFFSETS sample_renderer
              sample_board heap_after_import) as [xA h1] eqn:HA.
  pose proof HA as HA'. vm_compute in HA'.
  destruct xA as [sA|e]; [|discriminate HA'].
  injection HA' as _ Hh1.
  destruct (get_board_as_string spec_CONNECTED_CORNER_OFFSETS sample_renderer
              sample_board_no_harbor h1) as [xB h2] eqn:HB.
  pose proof HB as HB'. rewrite <- Hh1 in HB'. vm_compute in HB'.
  destruct xB as [sB|e]; [|discriminate HB'].
  exists sA, sB, h1, h2. split_and!; [done..|].
  exact (X5_rendering_stable_across_boards _ _ _ _ _ _ _ _ _ HA HB).
Defined.

Lemma X6_one_palette_for_all_renderers_witness :
  let r1 := BoardRenderer__init__ (Some 2%positive) None None in
  let r2 := BoardRenderer__init__ (Some 3%positive) None None in
  let ps := [1; 2; 3; 4]%positive in
  NoDup ps /\
  (forall p', p' ∈ ps -> colormap r1 sample_heap_two_maps !! p' = None) /\
  colormap r2 sample_heap_two_maps !! 9%positive = None /\
  _get_player_color r2 9%positive (requests r1 ps sample_heap_two_maps).2 =
  (Raise IndexError, (requests r1 ps sample_heap_two_maps).2).
Proof.
  intros r1 r2 ps.
  assert (Hnd : NoDup ps) by compute_done.
  assert (Hnew : forall p', p' ∈ ps ->
                 colormap r1 sample_heap_two_maps !! p' = None).
  { intros p' _. unfold colormap. simpl.
    by rewrite lookup_total_insert_eq, lookup_empty. }
  assert (Hp : colormap r2 sample_heap_two_maps !! 9%positive = None)
    by reflexivity.
  split_and!; [done..|].
  apply (X6_one_palette_for_all_renderers 2%positive 3%positive None None
           None None sample_heap_two_maps ps 9%positive);
    [done|done|done| |done].
  vm_compute. lia.
Defined.

Lemma X7_copy_into_array_in_bounds_witness :
  _copy_into_array sample_canvas sample_block 1 1 =
  Ok [[Lit "."; Lit "."; Lit "."; Lit "."];
      [Lit "."; Lit "a"; Lit "b"; Lit "."];
      [Lit "."; Lit "."; Lit "."; Lit "."]].
Proof.
  rewrite (X7_copy_into_array_in_bounds sample_canvas sample_block 1 1);
    [reflexivity|lia|lia|simpl; lia|].
  intros row old Hrow Hold.
  apply list_elem_of_singleton in Hrow as ->.
  apply elem_of_replicate in Hold as [-> _]. simpl. lia.
Defined.

Lemma X8_copy_into_array_same_shape_witness :
  exists buf',
    _copy_into_array sample_canvas sample_block (-2) (-1) = Ok buf' /\
    length buf' = 3%nat /\ length <$> buf' = [4; 4; 4]%nat.
Proof.
  destruct (_copy_into_array sample_canvas sample_block (-2) (-1))
    as [buf'|e] eqn:Hrun; [|vm_compute in Hrun; discriminate Hrun].
  exists buf'. split; [done|].
  exact (X8_copy_into_array_same_shape _ _ _ _ _ Hrun).
Defined.

Lemma X9_copy_into_array_overflow_witness :
  Forall (fun row : list pystr => length row = 4%nat) sample_canvas /\
  Forall (fun row : list pystr => row <> []) sample_block /\
  _copy_into_array sample_canvas sample_block 3 0 = Raise IndexError.
Proof.
  assert (Hrect : Forall (fun row : list pystr => length row = 4%nat)
                         sample_canvas) by (by repeat constructor).
  assert (Hne : Forall (fun row : list pystr => row <> []) sample_block)
    by (by repeat constructor).
  split_and!; [done..|].
  apply (proj2 (X9_copy_into_array_overflow sample_canvas sample_block 3 0 4));
    [lia|lia|done|done|].
  right. exists [Lit "a"; Lit "b"]. split; [by left|simpl; lia].
Defined.

Lemma X10_copy_into_array_wraps_witness :
  _copy_into_array sample_canvas sample_block 1 (-1) =
  _copy_into_array sample_canvas sample_block 1 2 /\
  _copy_into_array sample_canvas sample_block (-2) 1 =
  _copy_into_array sample_canvas sample_block 2 1.
Proof.
  destruct (X10_copy_into_array_wraps sample_canvas sample_block 1 (-1) 4)
    as [Hrows _].
  destruct (X10_copy_into_array_wraps sample_canvas sample_block (-2) 1 4)
    as [_ Hcols].
  split.
  - apply Hrows; simpl; lia.
  - apply Hcols.
    + by repeat constructor.
    + lia.
    + intros row Hrow. apply list_elem_of_singleton in Hrow as ->.
      simpl. lia.
Defined.

Lemma X11_hex_block_shape_witness :
  exists block h',
    _get_hex sample_renderer sample_board (mkCoords 0 0) heap_after_import
    = (Ok block, h') /\
    length <$> block = [7; 7; 7]%nat.
Proof.
  destruct (_get_hex sample_renderer sample_board (mkCoords 0 0)
              heap_after_import) as [[block|e] h'] eqn:Hrun;
    [|vm_compute in Hrun; discriminate Hrun].
  exists block, h'. split; [done|].
  exact (X11_hex_block_shape _ _ _ _ _ _ Hrun).
Defined.

Lemma X12_hex_missing_topology_witness :
  mkCoords 1 (-1) ∈ hex_corners (mkCoords 0 0) /\
  Board.intersections sample_board_empty !! mkCoords 1 (-1) = None /\
  _get_hex sample_renderer sample_board_empty (mkCoords 0 0) heap_after_import
  = (Raise KeyError, heap_after_import).
Proof.
  assert (Hin : mkCoords 1 (-1) ∈ hex_corners (mkCoords 0 0)) by (by left).
  assert (Hnone : Board.intersections sample_board_empty !! mkCoords 1 (-1)
                  = None) by reflexivity.
  split_and!; [done..|].
  apply X12_hex_missing_topology. left. by exists (mkCoords 1 (-1)).
Defined.

Lemma X13_canvas_shape_witness :
  exists s h' (buf : list (list pystr)),
    get_board_as_string spec_CONNECTED_CORNER_OFFSETS sample_renderer
      sample_board heap_after_import = (Ok s, h') /\
    length buf = 20%nat /\
    Forall (fun row => length row = 55%nat) buf /\
    s = join (Lit newline) (join (Lit "") <$> buf).
Proof.
  destruct (get_board_as_string spec_CONNECTED_CORNER_OFFSETS sample_renderer
              sample_board heap_after_import) as [[s|e] h'] eqn:Hrun;
    [|vm_compute in Hrun; discriminate Hrun].
  destruct (X13_canvas_shape _ _ _ _ _ _ Hrun) as (buf & H1 & H2 & H3).
  exists s, h', buf.
  split; [reflexivity|]. split; [exact H1|]. split; [exact H2|exact H3].
Defined.

Lemma X14_harbor_coords_witness :
  let harbor := Harbor.mk [mkCoords 1 (-1); mkCoords 1 0] (Some ORE) in
  _get_harbor_coords spec_CONNECTED_CORNER_OFFSETS harbor sample_board
  = Ok (-1, -1) /\
  (exists o, (o ∉ keys (Board.hexes sample_board)) /\
             _get_hex_center_coords o = Ok (-1 - 2, -1 - 1)) /\
  _get_harbor_coords spec_CONNECTED_CORNER_OFFSETS
    (Harbor.mk [mkCoords 1 0] None) sample_board = Raise IndexError.
Proof.
  intros harbor.
  assert (Hrun : _get_harbor_coords spec_CONNECTED_CORNER_OFFSETS harbor
                   sample_board = Ok (-1, -1)) by reflexivity.
  split_and!; [done| |].
  - destruct (proj1 (X14_harbor_coords spec_CONNECTED_CORNER_OFFSETS harbor
                       sample_board) (-1) (-1) Hrun)
      as (a & b & o & _ & _ & _ & _ & Hoff & Hproj).
    exists o. split; [exact Hoff|exact Hproj].
  - apply (proj2 (X14_harbor_coords spec_CONNECTED_CORNER_OFFSETS
                    (Harbor.mk [mkCoords 1 0] None) sample_board)).
    simpl. lia.
Defined.

Lemma X15_projection_collisions_witness :
  _get_hex_center_coords (mkCoords 0 1) =
  _get_hex_center_coords (mkCoords (-1) 1) /\
  r (mkCoords 0 1) = r (mkCoords (-1) 1) /\
  Z.abs (q (mkCoords 0 1) - q (mkCoords (-1) 1)) <= 1.
Proof.
  assert (Hsame : _get_hex_center_coords (mkCoords 0 1) =
                  _get_hex_center_coords (mkCoords (-1) 1)) by reflexivity.
  split; [done|].
  apply (proj1 X15_projection_collisions (mkCoords 0 1) (mkCoords (-1) 1));
    simpl; try lia. done.
Defined.

Lemma X17_hex_color_map_needs_desert_witness :
  let hm : gmap HexType string := {[ FIELDS := "#ffffff" ]} in
  hm !! DESERT = None /\
  get_board_as_string spec_CONNECTED_CORNER_OFFSETS
    (BoardRenderer__init__ None (Some hm) None) sample_board heap_after_import
  = (Raise KeyError, heap_after_import).
Proof.
  intros hm.
  assert (Hd : hm !! DESERT = None) by reflexivity.
  split; [done|].
  apply (proj2 (X17_hex_color_map_needs_desert None hm None Hd)
           spec_CONNECTED_CORNER_OFFSETS sample_board (mkCoords 0 0)
           (Hex.mk FIELDS (Some 8)) [] heap_after_import (0, 0));
    reflexivity.
Defined.
